(** * Gas Town: session supervision, wisp reaping, operational thresholds and
      the plain event feed

    A shallow embedding of four pieces of the repository:

    - [Tmux]   : the pane liveness probe and the pane-died hook command
                 (internal/tmux);
    - [Daemon] : the wisp_reaper patrol (package daemon);
    - [Config] : the nil-safe operational threshold accessors
                 (internal/config/operational.go);
    - [Feed]   : the plain-text event printer (package feed).

    Conventions.  A Go pointer is an [option] ([None] is nil).  A Go [int] and
    a [time.Duration] are integers in [Z]; durations count nanoseconds.  The
    row counts and sums of this development stay far below 2^63, so the
    additions of the reaper are written without wrap-around.  Log output is
    kept as a list of structured lines, one constructor per format string of
    the source. *)

From Stdlib Require Import ZArith NArith String Ascii List Bool Lia.
From Stdlib Require Import Permutation Sorted.
From stdpp Require Import base option list gmap strings sorting.

Import ListNotations.
Local Open Scope string_scope.
Local Open Scope list_scope.
Local Open Scope Z_scope.

(** ** Go strings: the few functions of package [strings] that the code uses *)

Module GoStrings.

(** [strings.HasPrefix]. *)
Fixpoint HasPrefix (s prefix : string) {struct prefix} : bool :=
  match prefix with
  | EmptyString => true
  | String a p =>
      match s with
      | EmptyString => false
      | String b s' => Ascii.eqb a b && HasPrefix s' p
      end
  end.

(** [strings.Contains]: [substr] occurs at some offset of [s]. *)
Fixpoint Contains (s substr : string) : bool :=
  HasPrefix s substr ||
  match s with
  | EmptyString => false
  | String _ s' => Contains s' substr
  end.

(** [strings.HasSuffix], as a proposition. *)
Definition HasSuffix (s suffix : string) : Prop :=
  exists front, s = front +:+ suffix.

(** The ASCII white space that [strings.TrimSpace] removes: tab, line feed,
    vertical tab, form feed, carriage return and space.  (TrimSpace also
    removes non-ASCII Unicode spaces; tmux formats never print them.) *)
Definition isSpace (c : ascii) : bool :=
  let n := N_of_ascii c in
  ((9 <=? n) && (n <=? 13))%N || (n =? 32)%N.

Fixpoint trimLeft (s : string) : string :=
  match s with
  | EmptyString => EmptyString
  | String c s' => if isSpace c then trimLeft s' else s
  end.

(** Drops the white space at the end: a character is kept when it is not a
    space or when something is kept after it. *)
Fixpoint trimRight (s : string) : string :=
  match s with
  | EmptyString => EmptyString
  | String c s' =>
      match trimRight s' with
      | EmptyString => if isSpace c then EmptyString else String c EmptyString
      | kept => String c kept
      end
  end.

Definition TrimSpace (s : string) : string := trimRight (trimLeft s).

Lemma app_nil (b : string) : EmptyString +:+ b = b.
Proof. reflexivity. Qed.

Lemma app_cons (x : ascii) (a b : string) :
  String x a +:+ b = String x (a +:+ b).
Proof. reflexivity. Qed.

Lemma HasPrefix_app (p rest : string) : HasPrefix (p +:+ rest) p = true.
Proof.
  induction p as [|a p IH].
  - reflexivity.
  - rewrite app_cons. simpl. rewrite Ascii.eqb_refl. exact IH.
Qed.

Lemma HasPrefix_app_l (s p rest : string) :
  HasPrefix s p = true -> HasPrefix (s +:+ rest) p = true.
Proof.
  revert s. induction p as [|a p IH]; intros s H.
  - reflexivity.
  - destruct s as [|b s]; simpl in H; [discriminate|].
    apply andb_true_iff in H as [Hab Hp].
    rewrite app_cons. simpl. rewrite Hab. simpl. apply IH, Hp.
Qed.

Lemma Contains_unfold (s sub : string) :
  Contains s sub =
  HasPrefix s sub ||
  match s with
  | EmptyString => false
  | String _ s' => Contains s' sub
  end.
Proof. destruct s; reflexivity. Qed.

Lemma Contains_here (p rest : string) : Contains (p +:+ rest) p = true.
Proof. rewrite Contains_unfold, HasPrefix_app. reflexivity. Qed.

Lemma Contains_app_l (s rest sub : string) :
  Contains s sub = true -> Contains (s +:+ rest) sub = true.
Proof.
  induction s as [|c s IH]; intros H; rewrite Contains_unfold in H.
  - rewrite orb_false_r in H.
    rewrite Contains_unfold, (HasPrefix_app_l _ _ rest H). reflexivity.
  - apply orb_true_iff in H as [H|H].
    + rewrite Contains_unfold, (HasPrefix_app_l _ _ rest H). reflexivity.
    + rewrite app_cons, Contains_unfold, (IH H). apply orb_true_r.
Qed.

Lemma Contains_app_r (front s sub : string) :
  Contains s sub = true -> Contains (front +:+ s) sub = true.
Proof.
  intros H. induction front as [|c front IH].
  - exact H.
  - rewrite app_cons, Contains_unfold, IH. apply orb_true_r.
Qed.

(** A substring in the middle of a concatenation is found. *)
Lemma Contains_mid (front sub back : string) :
  Contains (front +:+ sub +:+ back) sub = true.
Proof. apply Contains_app_r, Contains_here. Qed.

Lemma append_assoc (a b c : string) : (a +:+ b) +:+ c = a +:+ b +:+ c.
Proof.
  induction a as [|x a IH]; [reflexivity|].
  rewrite !app_cons, IH. reflexivity.
Qed.

Lemma append_length (a b : string) :
  String.length (a +:+ b) = (String.length a + String.length b)%nat.
Proof.
  induction a as [|x a IH]; [reflexivity|].
  rewrite app_cons. simpl. now rewrite IH.
Qed.

(** Cancelling a common tail. *)
Lemma append_inv_tail (a b tail : string) :
  a +:+ tail = b +:+ tail -> a = b.
Proof.
  revert b. induction a as [|x a IH]; intros [|y b] H.
  - reflexivity.
  - exfalso. apply (f_equal String.length) in H.
    rewrite app_nil, app_cons in H. simpl in H.
    rewrite append_length in H. lia.
  - exfalso. apply (f_equal String.length) in H.
    rewrite app_nil, app_cons in H. simpl in H.
    rewrite append_length in H. lia.
  - rewrite !app_cons in H. injection H as -> H. f_equal. apply IH, H.
Qed.

End GoStrings.

(** ** internal/tmux: the liveness probe and the pane-died hook *)

Module Tmux.
Import GoStrings.

(** The double-quote character that delimits the argument of [run-shell]. *)
Definition dquote : string := String (ascii_of_nat 34) EmptyString.

(** What [exec.Command(...).CombinedOutput()] hands back: the bytes printed on
    stdout and stderr, and whether [err != nil]. *)
Record CmdResult := mkCmdResult { cmdOutput : string; cmdFailed : bool }.

Section Probe.

(** The multiplexer: running [tmux] with the given arguments. *)
Variable runTmux : list string -> CmdResult.

(** [isPaneDead] (respawn_hook_test.go, lines 49-55). *)
Definition isPaneDead (socket session : string) : bool :=
  let r := runTmux ["-L"; socket; "list-panes"; "-t"; session;
                    "-F"; "#{pane_dead}"] in
  if cmdFailed r then false
  else String.eqb (TrimSpace (cmdOutput r)) "1".

End Probe.

(** Modelled from the spec: the respawn sub-command of the hook, section 4.2
    items 4 and 6 (the function [buildAutoRespawnHookCmd] is not among the
    sources; only its test is).  The invocation prefix comes first, verbatim,
    then the respawn-with-kill verb and the target session. *)
Definition respawnSubCmd (tmuxCmd session : string) : string :=
  tmuxCmd +:+ " respawn-pane -k -t '" +:+ session +:+ "'".

(** Modelled from the spec: the liveness recheck of the hook, section 4.2
    item 3: the pane is listed with its [pane_dead] flag and the respawn only
    runs when the flag reads 1. *)
Definition livenessRecheck (tmuxCmd session : string) : string :=
  tmuxCmd +:+ " list-panes -t '" +:+ session
          +:+ "' -F '#{pane_dead}' 2>/dev/null | grep -q 1".

(** Modelled from the spec: the shell text run by the hook, section 4.2 items
    2 to 5: a 3 second grace sleep, the recheck, the conditional respawn, and
    the suppression of every failure at the very end. *)
Definition hookScript (tmuxCmd session : string) : string :=
  "sleep 3 && " +:+ livenessRecheck tmuxCmd session
    +:+ " && " +:+ respawnSubCmd tmuxCmd session
    +:+ " 2>/dev/null " +:+ "|| true".

(** Modelled from the spec: [buildAutoRespawnHookCmd], section 4.2 (absent
    from the sources).  The script is handed to the multiplexer's background
    shell runner. *)
Definition buildAutoRespawnHookCmd (tmuxCmd session : string) : string :=
  "run-shell -b " +:+ dquote +:+ hookScript tmuxCmd session +:+ dquote.

(** Modelled from the spec: the invocation prefix that the respawn
    coordinator passes, section 4.3: bare for an empty socket name (legacy
    unscoped mode), qualified with [-L <socket>] otherwise. *)
Definition socketQualifier (socketName : string) : string :=
  "-L " +:+ socketName.

Definition tmuxCmdFor (socketName : string) : string :=
  match socketName with
  | EmptyString => "tmux"
  | _ => "tmux " +:+ socketQualifier socketName
  end.

(** *** The five rows of [TestAutoRespawnHookCmd_Format] *)

Example format_background_flag :
  Contains (buildAutoRespawnHookCmd "tmux -L gt" "hq-deacon") "run-shell -b" = true.
Proof. vm_compute. reflexivity. Qed.

Example format_dead_pane_guard :
  Contains (buildAutoRespawnHookCmd "tmux -L gt" "hq-deacon") "pane_dead" = true.
Proof. vm_compute. reflexivity. Qed.

Example format_error_suppression :
  Contains (buildAutoRespawnHookCmd "tmux -L gt" "hq-deacon") "|| true" = true.
Proof. vm_compute. reflexivity. Qed.

Example format_socket_flag_in_respawn :
  Contains (buildAutoRespawnHookCmd "tmux -L gt" "hq-deacon") "-L gt" = true.
Proof. vm_compute. reflexivity. Qed.

Example format_no_socket_bare_tmux :
  Contains (buildAutoRespawnHookCmd "tmux" "hq-deacon") "tmux respawn-pane" = true.
Proof. vm_compute. reflexivity. Qed.

(** *** Shape of the hook command *)

Lemma hook_has_background_flag (tmuxCmd session : string) :
  Contains (buildAutoRespawnHookCmd tmuxCmd session) "run-shell -b" = true.
Proof.
  unfold buildAutoRespawnHookCmd.
  change ("run-shell -b " +:+ dquote +:+ hookScript tmuxCmd session +:+ dquote)
    with ("run-shell -b" +:+ (" " +:+ dquote +:+ hookScript tmuxCmd session +:+ dquote)).
  apply Contains_here.
Qed.

Lemma hook_contains_script_part (tmuxCmd session front part back : string) :
  hookScript tmuxCmd session = front +:+ part +:+ back ->
  Contains (buildAutoRespawnHookCmd tmuxCmd session) part = true.
Proof.
  intros E. unfold buildAutoRespawnHookCmd. rewrite E.
  apply (Contains_app_r "run-shell -b "), (Contains_app_r dquote).
  rewrite !append_assoc. apply Contains_mid.
Qed.

Lemma hook_has_liveness_recheck (tmuxCmd session : string) :
  Contains (buildAutoRespawnHookCmd tmuxCmd session) "pane_dead" = true.
Proof.
  apply (hook_contains_script_part tmuxCmd session
           ("sleep 3 && " +:+ tmuxCmd +:+ " list-panes -t '" +:+ session +:+ "' -F '#{")
           "pane_dead"
           ("}' 2>/dev/null | grep -q 1 && " +:+ respawnSubCmd tmuxCmd session
              +:+ " 2>/dev/null || true")).
  unfold hookScript, livenessRecheck.
  rewrite !append_assoc. reflexivity.
Qed.

Lemma hook_has_respawn (tmuxCmd session : string) :
  Contains (buildAutoRespawnHookCmd tmuxCmd session)
           (respawnSubCmd tmuxCmd session) = true.
Proof.
  apply (hook_contains_script_part tmuxCmd session
           ("sleep 3 && " +:+ livenessRecheck tmuxCmd session +:+ " && ")
           (respawnSubCmd tmuxCmd session)
           " 2>/dev/null || true").
  unfold hookScript. rewrite !append_assoc. reflexivity.
Qed.

Lemma hook_script_suppresses_last (tmuxCmd session : string) :
  HasSuffix (hookScript tmuxCmd session) "|| true".
Proof.
  exists ("sleep 3 && " +:+ livenessRecheck tmuxCmd session
            +:+ " && " +:+ respawnSubCmd tmuxCmd session +:+ " 2>/dev/null ").
  unfold hookScript. rewrite !append_assoc. reflexivity.
Qed.

Lemma hook_has_suppression (tmuxCmd session : string) :
  Contains (buildAutoRespawnHookCmd tmuxCmd session) "|| true" = true.
Proof.
  destruct (hook_script_suppresses_last tmuxCmd session) as [front E].
  apply (hook_contains_script_part tmuxCmd session front "|| true" EmptyString).
  rewrite E. reflexivity.
Qed.

(** The qualifier sits in the respawn invocation exactly when it is the one
    of the prefix. *)
Lemma respawn_qualifier_iff (tmuxCmd session q : string) :
  respawnSubCmd tmuxCmd session = respawnSubCmd ("tmux " +:+ q) session
  <-> tmuxCmd = "tmux " +:+ q.
Proof.
  split.
  - unfold respawnSubCmd. intros H.
    apply (append_inv_tail _ _ (" respawn-pane -k -t '" +:+ session +:+ "'")), H.
  - intros ->. reflexivity.
Qed.

Lemma bare_prefix_has_no_qualifier (q : string) : "tmux" <> "tmux " +:+ q.
Proof.
  intros H. apply (f_equal String.length) in H.
  rewrite append_length in H. simpl in H. lia.
Qed.

Lemma respawn_contains_qualifier (q session : string) :
  Contains (respawnSubCmd ("tmux " +:+ q) session) q = true.
Proof.
  unfold respawnSubCmd. rewrite append_assoc. apply Contains_mid.
Qed.

Lemma Contains_trans_hook (tmuxCmd session q : string) :
  Contains (respawnSubCmd tmuxCmd session) q = true ->
  Contains (buildAutoRespawnHookCmd tmuxCmd session) q = true.
Proof.
  intros H. unfold buildAutoRespawnHookCmd, hookScript.
  apply (Contains_app_r "run-shell -b "), (Contains_app_r dquote).
  apply Contains_app_l.
  apply (Contains_app_r "sleep 3 && "),
        (Contains_app_r (livenessRecheck tmuxCmd session)),
        (Contains_app_r " && ").
  apply Contains_app_l, H.
Qed.

(** C1.  For every invocation prefix and session name the hook command holds
    the background flag [run-shell -b], a liveness recheck on [pane_dead],
    and ends its script with the unconditional suppression [|| true]; its
    respawn sub-command is the prefix followed by the respawn verb, so a
    socket qualifier [q] stands in the respawn invocation if and only if the
    prefix is [tmux q]: a qualified prefix has its qualifier embedded (also
    as a substring of the whole command), and the bare prefix [tmux] carries
    and embeds none. *)
Theorem C1_hook_command_format (tmuxCmd session q : string) :
  Contains (buildAutoRespawnHookCmd tmuxCmd session) "run-shell -b" = true
  /\ Contains (buildAutoRespawnHookCmd tmuxCmd session) "pane_dead" = true
  /\ Contains (buildAutoRespawnHookCmd tmuxCmd session) "|| true" = true
  /\ (exists script,
        buildAutoRespawnHookCmd tmuxCmd session
          = "run-shell -b " +:+ dquote +:+ script +:+ dquote
        /\ HasSuffix script "|| true")
  /\ Contains (buildAutoRespawnHookCmd tmuxCmd session)
              (respawnSubCmd tmuxCmd session) = true
  /\ (respawnSubCmd tmuxCmd session
        = "tmux " +:+ q +:+ " respawn-pane -k -t '" +:+ session +:+ "'"
      <-> tmuxCmd = "tmux " +:+ q)
  /\ Contains (buildAutoRespawnHookCmd ("tmux " +:+ q) session) q = true
  /\ respawnSubCmd "tmux" session
       = "tmux respawn-pane -k -t '" +:+ session +:+ "'"
  /\ "tmux" <> "tmux " +:+ q.
Proof.
  split; [apply hook_has_background_flag|].
  split; [apply hook_has_liveness_recheck|].
  split; [apply hook_has_suppression|].
  split.
  { exists (hookScript tmuxCmd session). split; [reflexivity|].
    apply hook_script_suppresses_last. }
  split; [apply hook_has_respawn|].
  split.
  { rewrite <- (respawn_qualifier_iff tmuxCmd session q).
    unfold respawnSubCmd. rewrite !append_assoc. reflexivity. }
  split; [apply Contains_trans_hook, respawn_contains_qualifier|].
  split; [reflexivity|]. apply bare_prefix_has_no_qualifier.
Qed.

(** The coordinator's prefixes: qualified exactly for a non-empty socket. *)
Lemma tmuxCmdFor_qualified (socketName : string) :
  socketName <> EmptyString ->
  tmuxCmdFor socketName = "tmux " +:+ socketQualifier socketName.
Proof. destruct socketName; [congruence | reflexivity]. Qed.

Lemma tmuxCmdFor_bare : tmuxCmdFor EmptyString = "tmux".
Proof. reflexivity. Qed.

(** *** The liveness probe *)

Lemma isPaneDead_true_inv runTmux (socket session : string) :
  isPaneDead runTmux socket session = true ->
  cmdFailed (runTmux ["-L"; socket; "list-panes"; "-t"; session;
                      "-F"; "#{pane_dead}"]) = false.
Proof.
  unfold isPaneDead. destruct (cmdFailed _); [discriminate | reflexivity].
Qed.

(** C4.  For every socket and session, when the pane-liveness query fails
    (whatever it printed), the probe answers false: not dead. *)
Theorem C4_probe_error_is_not_dead
    (runTmux : list string -> CmdResult) (socket session : string) :
  cmdFailed (runTmux ["-L"; socket; "list-panes"; "-t"; session;
                      "-F"; "#{pane_dead}"]) = true ->
  isPaneDead runTmux socket session = false.
Proof.
  intros Hfail. unfold isPaneDead. rewrite Hfail. reflexivity.
Qed.

(** A multiplexer on which the session is gone: the query fails, and its
    combined output even reads 1. *)
Definition goneSession (args : list string) : CmdResult :=
  mkCmdResult "1" true.

Lemma C4_probe_error_witness :
  isPaneDead goneSession "gt" "hq-deacon" = false.
Proof.
  apply (C4_probe_error_is_not_dead goneSession "gt" "hq-deacon").
  reflexivity.
Defined.

(** A healthy query decides by the trimmed output. *)
Example probe_reads_dead :
  isPaneDead (fun _ => mkCmdResult ("1" +:+ String (ascii_of_nat 10) EmptyString) false)
             "gt" "hq-deacon" = true.
Proof. vm_compute. reflexivity. Qed.

Example probe_reads_alive :
  isPaneDead (fun _ => mkCmdResult ("0" +:+ String (ascii_of_nat 10) EmptyString) false)
             "gt" "hq-deacon" = false.
Proof. vm_compute. reflexivity. Qed.

(** *** What the probe accepts as dead *)








End Tmux.

(** ** Go durations *)

Module GoTime.

(** [time.Duration] and instants of [time.Time], in nanoseconds. *)
Definition Duration := Z.
Definition Time := Z.

Definition Millisecond : Duration := 1000000.
Definition Second : Duration := 1000 * Millisecond.
Definition Minute : Duration := 60 * Second.
Definition Hour : Duration := 60 * Minute.

End GoTime.

(** ** package daemon: the wisp_reaper patrol *)

Module Daemon.
Import GoTime.

Definition defaultWispReaperInterval : Duration := 30 * Minute.
Definition defaultWispMaxAge : Duration := 24 * Hour.
(** Alert threshold: if open wisp count exceeds this, escalate. *)
Definition wispAlertThreshold : Z := 500.

(** [WispReaperConfig], and the two structs above it of which the patrol
    reads one field each ([DaemonPatrolConfig.Patrols],
    [PatrolsConfig.WispReaper]). *)
Record WispReaperConfig := mkWispReaperConfig {
  Enabled : bool;
  IntervalStr : string;
  MaxAgeStr : string;
  Databases : list string
}.

Record PatrolsConfig := mkPatrolsConfig {
  WispReaper : option WispReaperConfig
}.

Record DaemonPatrolConfig := mkDaemonPatrolConfig {
  Patrols : option PatrolsConfig
}.

(** *** The store: the [wisps] table of each database *)

(** The status vocabulary of the schema contract. *)
Inductive Status := open | hooked | in_progress | closed.

Record Wisp := mkWisp {
  status : Status;
  created_at : Time;
  closed_at : option Time   (* NULL until the wisp is closed *)
}.

(** What can go wrong with one database during one invocation. *)
Inductive Fault :=
| Healthy
| OpenFails     (* sql.Open returns an error *)
| ExecFails     (* the UPDATE returns an error and changes nothing *)
| CountFails.   (* the UPDATE succeeds, the SELECT COUNT fails *)

(** One database of the server: its rows, the server's NOW(), and the fault
    it is under. *)
Record Store := mkStore {
  rows : list Wisp;
  clock : Time;
  fault : Fault
}.

(** The three wrapped errors of [reapWispsInDB]. *)
Inductive ReapError :=
| ErrOpenConnection   (* "open connection: %w" *)
| ErrCloseStale       (* "close stale wisps: %w" *)
| ErrCountOpen.       (* "count open wisps: %w" *)

(** [status IN ('open', 'hooked', 'in_progress')]. *)
Definition isOpenStatus (s : Status) : bool :=
  match s with
  | open | hooked | in_progress => true
  | closed => false
  end.

(** The WHERE clause of the UPDATE:
    [status IN ('open', 'hooked', 'in_progress') AND created_at < ?]. *)
Definition isStale (cutoff : Time) (w : Wisp) : bool :=
  isOpenStatus (status w) && (created_at w <? cutoff).

(** [SET status='closed', closed_at=NOW()]. *)
Definition closeWisp (now : Time) (w : Wisp) : Wisp :=
  {| status := closed; created_at := created_at w; closed_at := Some now |}.

(** The UPDATE statement on a table. *)
Definition execClose (now cutoff : Time) (table : list Wisp) : list Wisp :=
  map (fun w => if isStale cutoff w then closeWisp now w else w) table.

(** [result.RowsAffected()] of that UPDATE: every matched row changes its
    status, so the changed rows are the matched rows. *)
Definition rowsAffected (cutoff : Time) (table : list Wisp) : Z :=
  Z.of_nat (length (List.filter (isStale cutoff) table)).

(** [SELECT COUNT( * ) FROM wisps WHERE status IN ('open', 'hooked',
    'in_progress')]. *)
Definition countOpen (table : list Wisp) : Z :=
  Z.of_nat (length (List.filter (fun w => isOpenStatus (status w)) table)).

(** A store after the UPDATE ran on it. *)
Definition updateStore (cutoff : Time) (st : Store) : Store :=
  {| rows := execClose (clock st) cutoff (rows st);
     clock := clock st; fault := fault st |}.

(** [reapWispsInDB] (lines 189-222): the server after the call, and the
    triple (reaped, open, err).  A database the server does not know makes
    the first statement fail. *)
Definition reapWispsInDB (srv : gmap string Store) (dbName : string)
    (cutoff : Time) : gmap string Store * (Z * Z * option ReapError) :=
  match srv !! dbName with
  | None => (srv, (0, 0, Some ErrCloseStale))
  | Some st =>
      match fault st with
      | OpenFails => (srv, (0, 0, Some ErrOpenConnection))
      | ExecFails => (srv, (0, 0, Some ErrCloseStale))
      | CountFails =>
          let reaped := rowsAffected cutoff (rows st) in
          (<[dbName := updateStore cutoff st]> srv,
           (reaped, 0, Some ErrCountOpen))
      | Healthy =>
          let reaped := rowsAffected cutoff (rows st) in
          let openCount := countOpen (rows (updateStore cutoff st)) in
          (<[dbName := updateStore cutoff st]> srv,
           (reaped, openCount, None))
      end
  end.

(** [discoverDoltDatabases]: hardcoded for now. *)
Definition discoverDoltDatabases : list string := ["hq"; "beads"; "gastown"].

(** *** The log: one constructor per [d.logger.Printf] of the patrol *)

Inductive LogLine :=
| LogNoDatabases
    (* "wisp_reaper: no databases to reap" *)
| LogSkipInvalid (dbName : string)
    (* "wisp_reaper: skipping invalid database name: %q" *)
| LogStoreError (dbName : string) (err : ReapError)
    (* "wisp_reaper: %s: error: %v" *)
| LogStoreReaped (dbName : string) (reaped : Z) (maxAge : Duration) (nOpen : Z)
    (* "wisp_reaper: %s: reaped %d stale wisps (older than %v), %d open remain" *)
| LogTotalReaped (reaped : Z) (nDatabases : Z) (nOpen : Z)
    (* "wisp_reaper: total reaped %d stale wisps across %d databases, %d open remain" *)
| LogThresholdWarning (nOpen : Z) (threshold : Z).
    (* "wisp_reaper: WARNING: %d open wisps exceed threshold %d ..." *)

(** The daemon, as far as the patrol touches it: its patrol configuration,
    the store server it talks to, and the lines its logger has printed. *)
Record Daemon := mkDaemon {
  patrolConfig : option DaemonPatrolConfig;
  server : gmap string Store;
  logger : list LogLine
}.

(** The variables of the loop in [reapWisps]. *)
Record Sweep := mkSweep {
  swServer : gmap string Store;
  swLog : list LogLine;
  totalReaped : Z;
  totalOpen : Z
}.

Section Reaper.

(** [time.ParseDuration]: [Some d] when it returns [d] with a nil error. *)
Variable ParseDuration : string -> option Duration.

(** [IsPatrolEnabled], defined elsewhere in package daemon. *)
Variable IsPatrolEnabled : option DaemonPatrolConfig -> string -> bool.

(** [validDBName.MatchString]: the allow-list pattern for database names. *)
Variable validDBName : string -> bool.

(** [wispReaperInterval] (lines 108-117). *)
Definition wispReaperInterval (config : option DaemonPatrolConfig) : Duration :=
  match config with
  | Some c =>
      match Patrols c with
      | Some p =>
          match WispReaper p with
          | Some r =>
              if negb (String.eqb (IntervalStr r) EmptyString) then
                match ParseDuration (IntervalStr r) with
                | Some d => if 0 <? d then d else defaultWispReaperInterval
                | None => defaultWispReaperInterval
                end
              else defaultWispReaperInterval
          | None => defaultWispReaperInterval
          end
      | None => defaultWispReaperInterval
      end
  | None => defaultWispReaperInterval
  end.

(** [wispReaperMaxAge] (lines 120-129). *)
Definition wispReaperMaxAge (config : option DaemonPatrolConfig) : Duration :=
  match config with
  | Some c =>
      match Patrols c with
      | Some p =>
          match WispReaper p with
          | Some r =>
              if negb (String.eqb (MaxAgeStr r) EmptyString) then
                match ParseDuration (MaxAgeStr r) with
                | Some d => if 0 <? d then d else defaultWispMaxAge
                | None => defaultWispMaxAge
                end
              else defaultWispMaxAge
          | None => defaultWispMaxAge
          end
      | None => defaultWispMaxAge
      end
  | None => defaultWispMaxAge
  end.

(** The body of [for _, dbName := range databases] (lines 155-173). *)
Definition reapStore (maxAge : Duration) (cutoff : Time)
    (s : Sweep) (dbName : string) : Sweep :=
  if negb (validDBName dbName) then
    {| swServer := swServer s;
       swLog := swLog s ++ [LogSkipInvalid dbName];
       totalReaped := totalReaped s; totalOpen := totalOpen s |}
  else
    match reapWispsInDB (swServer s) dbName cutoff with
    | (srv, (reaped, nOpen, Some err)) =>
        {| swServer := srv;
           swLog := swLog s ++ [LogStoreError dbName err];
           totalReaped := totalReaped s; totalOpen := totalOpen s |}
    | (srv, (reaped, nOpen, None)) =>
        {| swServer := srv;
           swLog := if 0 <? reaped
                    then swLog s ++ [LogStoreReaped dbName reaped maxAge nOpen]
                    else swLog s;
           totalReaped := totalReaped s + reaped;
           totalOpen := totalOpen s + nOpen |}
    end.

Definition reapLoop (maxAge : Duration) (cutoff : Time)
    (databases : list string) (s : Sweep) : Sweep :=
  fold_left (reapStore maxAge cutoff) databases s.

(** Lines 175-184: the summary, then the alert. *)
Definition reportTotals (databases : list string) (s : Sweep) : list LogLine :=
  let log1 :=
    if 0 <? totalReaped s
    then swLog s ++ [LogTotalReaped (totalReaped s)
                       (Z.of_nat (length databases)) (totalOpen s)]
    else swLog s in
  if wispAlertThreshold <? totalOpen s
  then log1 ++ [LogThresholdWarning (totalOpen s) wispAlertThreshold]
  else log1.

(** Lines 147-184 of [reapWisps]: the sweep over the chosen target list. *)
Definition sweep (maxAge : Duration) (cutoff : Time)
    (databases : list string) (d : Daemon) : Daemon :=
  if (length databases =? 0)%nat then
    {| patrolConfig := patrolConfig d; server := server d;
       logger := logger d ++ [LogNoDatabases] |}
  else
    let s := reapLoop maxAge cutoff databases
               {| swServer := server d; swLog := logger d;
                  totalReaped := 0; totalOpen := 0 |} in
    {| patrolConfig := patrolConfig d; server := swServer s;
       logger := reportTotals databases s |}.

(** Lines 143-146: the configured list, or the discovery fallback. *)
Definition targetDatabases (config : WispReaperConfig) : list string :=
  if (length (Databases config) =? 0)%nat
  then discoverDoltDatabases
  else Databases config.

(** [reapWisps] (lines 133-185), run at the instant [now].  [None] is the
    nil-pointer panic of [d.patrolConfig.Patrols.WispReaper] and
    [config.Databases] on a configuration without the reaper section. *)
Definition reapWisps (now : Time) (d : Daemon) : option Daemon :=
  if negb (IsPatrolEnabled (patrolConfig d) "wisp_reaper") then Some d
  else
    match patrolConfig d with
    | None => None
    | Some pc =>
        match Patrols pc with
        | None => None
        | Some p =>
            match WispReaper p with
            | None => None
            | Some config =>
                let maxAge := wispReaperMaxAge (patrolConfig d) in
                let cutoff := now - maxAge in
                Some (sweep maxAge cutoff (targetDatabases config) d)
            end
        end
    end.

(** *** What the claims say, in terms of the schema *)

(** A status of the set [{open, hooked, in_progress}]. *)
Definition NotClosed (s : Status) : Prop :=
  s = open \/ s = hooked \/ s = in_progress.

(** A wisp that one reap cycle with this cutoff has to close. *)
Definition Reapable (cutoff : Time) (w : Wisp) : Prop :=
  NotClosed (status w) /\ created_at w < cutoff.

Definition statusEqb (a b : Status) : bool :=
  match a, b with
  | open, open | hooked, hooked | in_progress, in_progress
  | closed, closed => true
  | _, _ => false
  end.

(** The rows whose status differs between two snapshots of a table. *)
Definition transitioned (before after : list Wisp) : list (Wisp * Wisp) :=
  List.filter (fun p => negb (statusEqb (status (fst p)) (status (snd p))))
              (combine before after).

(** The rows of a table that are not closed. *)
Definition survivors (table : list Wisp) : list Wisp :=
  List.filter (fun w => negb (statusEqb (status w) closed)) table.

(** One wisp across a reap cycle: its creation time stays, a closed wisp is
    not touched, and a status change ends in closed. *)
Definition wispStep (w w' : Wisp) : Prop :=
  created_at w' = created_at w
  /\ (status w = closed -> w' = w)
  /\ (status w' <> status w -> status w' = closed).

Definition storeStep (st st' : Store) : Prop :=
  clock st' = clock st /\ fault st' = fault st
  /\ Forall2 wispStep (rows st) (rows st').

Definition serverStep (srv srv' : gmap string Store) : Prop :=
  forall name, option_Forall2 storeStep (srv !! name) (srv' !! name).

(** What a store adds to the aggregate open count of a sweep: the survivors
    of a healthy store with a valid name, and nothing otherwise. *)
Definition openContribution (cutoff : Time) (srv : gmap string Store)
    (dbName : string) : Z :=
  if validDBName dbName then
    match srv !! dbName with
    | Some st =>
        match fault st with
        | Healthy => countOpen (execClose (clock st) cutoff (rows st))
        | _ => 0
        end
    | None => 0
    end
  else 0.

Definition aggregateOpen (cutoff : Time) (srv : gmap string Store)
    (databases : list string) : Z :=
  fold_right (fun name acc => openContribution cutoff srv name + acc) 0 databases.

(** The error one invocation runs into on a database, if any. *)
Definition storeError (srv : gmap string Store) (dbName : string)
    : option ReapError :=
  match srv !! dbName with
  | None => Some ErrCloseStale
  | Some st =>
      match fault st with
      | Healthy => None
      | OpenFails => Some ErrOpenConnection
      | ExecFails => Some ErrCloseStale
      | CountFails => Some ErrCountOpen
      end
  end.

(** The lines the loop itself prints. *)
Definition isLoopLine (l : LogLine) : bool :=
  match l with
  | LogSkipInvalid _ | LogStoreError _ _ | LogStoreReaped _ _ _ _ => true
  | _ => false
  end.

(** The state in which [reapWisps] enters its loop. *)
Definition startSweep (d : Daemon) : Sweep :=
  {| swServer := server d; swLog := logger d;
     totalReaped := 0; totalOpen := 0 |}.

(** The reaper section of a patrol configuration, when all three pointers on
    the way to it are set. *)
Definition reaperSection (config : option DaemonPatrolConfig)
    : option WispReaperConfig :=
  match config with
  | Some c => match Patrols c with Some p => WispReaper p | None => None end
  | None => None
  end.

(** A duration string that makes the accessors fall back: empty, rejected by
    the parser, or parsed to zero or less. *)
Definition FallsBack (str : string) : Prop :=
  str = EmptyString
  \/ ParseDuration str = None
  \/ exists d, ParseDuration str = Some d /\ d <= 0.

(** *** The UPDATE and the COUNT *)

Lemma isOpenStatus_NotClosed (s : Status) :
  isOpenStatus s = true <-> NotClosed s.
Proof.
  unfold NotClosed. destruct s; simpl; split; intros H; auto;
    try discriminate; destruct H as [H|[H|H]]; discriminate.
Qed.

Lemma NotClosed_neq (s : Status) : NotClosed s <-> s <> closed.
Proof.
  unfold NotClosed. destruct s; split; intros H; auto; try congruence;
    destruct H as [H|[H|H]]; discriminate.
Qed.

Lemma isStale_Reapable (cutoff : Time) (w : Wisp) :
  isStale cutoff w = true <-> Reapable cutoff w.
Proof.
  unfold isStale, Reapable.
  rewrite andb_true_iff, isOpenStatus_NotClosed, Z.ltb_lt. reflexivity.
Qed.

Lemma isStale_closed (cutoff : Time) (w : Wisp) :
  status w = closed -> isStale cutoff w = false.
Proof. unfold isStale. intros ->. reflexivity. Qed.

Lemma execClose_length (now cutoff : Time) (table : list Wisp) :
  length (execClose now cutoff table) = length table.
Proof. unfold execClose. apply length_map. Qed.

Lemma execClose_lookup (now cutoff : Time) (table : list Wisp) (i : nat) :
  execClose now cutoff table !! i
  = (fun w => if isStale cutoff w then closeWisp now w else w) <$> table !! i.
Proof. unfold execClose. apply list_lookup_fmap. Qed.

(** Running the UPDATE twice changes nothing more. *)
Lemma execClose_idem (now cutoff : Time) (table : list Wisp) :
  execClose now cutoff (execClose now cutoff table) = execClose now cutoff table.
Proof.
  unfold execClose. rewrite map_map. apply map_ext. intros w.
  destruct (isStale cutoff w) eqn:E.
  - rewrite isStale_closed; reflexivity.
  - rewrite E. reflexivity.
Qed.

Lemma rowsAffected_execClose (now cutoff : Time) (table : list Wisp) :
  rowsAffected cutoff (execClose now cutoff table) = 0.
Proof.
  unfold rowsAffected, execClose.
  induction table as [|w table IH]; [reflexivity|].
  simpl. destruct (isStale cutoff w) eqn:E.
  - rewrite isStale_closed by reflexivity. exact IH.
  - rewrite E. exact IH.
Qed.

(** The affected rows are the rows whose status changed. *)
Lemma rowsAffected_transitioned (now cutoff : Time) (table : list Wisp) :
  rowsAffected cutoff table
  = Z.of_nat (length (transitioned table (execClose now cutoff table))).
Proof.
  unfold rowsAffected, transitioned, execClose. f_equal.
  induction table as [|w table IH]; [reflexivity|].
  simpl. destruct (isStale cutoff w) eqn:E; simpl.
  - apply andb_true_iff in E as [Hopen _].
    destruct (status w); try discriminate; simpl; now rewrite IH.
  - assert (statusEqb (status w) (status w) = true) as ->
      by (destruct (status w); reflexivity).
    simpl. exact IH.
Qed.

Lemma countOpen_survivors (table : list Wisp) :
  countOpen table = Z.of_nat (length (survivors table)).
Proof.
  unfold countOpen, survivors. do 2 f_equal.
  apply filter_ext. intros w. destruct (status w); reflexivity.
Qed.

Lemma survivors_NotClosed (table : list Wisp) (w : Wisp) :
  In w (survivors table) <-> In w table /\ NotClosed (status w).
Proof.
  unfold survivors. rewrite filter_In, NotClosed_neq.
  destruct (status w); simpl; intuition congruence.
Qed.

(** Row by row, the UPDATE closes the reapable wisps and keeps the others. *)
Lemma execClose_row (now cutoff : Time) (table : list Wisp) (i : nat) (w : Wisp) :
  table !! i = Some w ->
  (Reapable cutoff w ->
     execClose now cutoff table !! i
     = Some {| status := closed; created_at := created_at w;
               closed_at := Some now |})
  /\ (~ Reapable cutoff w -> execClose now cutoff table !! i = Some w).
Proof.
  intros Hi. rewrite execClose_lookup, Hi. simpl.
  destruct (isStale cutoff w) eqn:E.
  - apply isStale_Reapable in E. split; [reflexivity | contradiction].
  - split; [|reflexivity]. intros H%isStale_Reapable. congruence.
Qed.

(** *** One invocation of [reapWispsInDB] *)

(** C2.  On a store that answers both statements, one invocation with a
    given cutoff closes exactly the wisps whose status is open, hooked or
    in_progress and whose created_at is older than the cutoff, stamps them
    with the store's current time, leaves every other wisp (every closed one
    in particular, with its closed_at) as it was, and returns the number of
    rows so transitioned and the number of wisps still not closed.  The other
    databases of the server are not touched. *)
Theorem C2_reap_in_one_store
    (srv : gmap string Store) (dbName : string) (cutoff : Time) (st : Store) :
  srv !! dbName = Some st ->
  fault st = Healthy ->
  exists srv' st' reaped nOpen,
    reapWispsInDB srv dbName cutoff = (srv', (reaped, nOpen, None))
    /\ srv' !! dbName = Some st'
    /\ length (rows st') = length (rows st)
    /\ (forall i w, rows st !! i = Some w ->
          (Reapable cutoff w ->
             rows st' !! i
             = Some {| status := closed; created_at := created_at w;
                       closed_at := Some (clock st) |})
          /\ (~ Reapable cutoff w -> rows st' !! i = Some w)
          /\ (status w = closed -> rows st' !! i = Some w))
    /\ reaped = Z.of_nat (length (transitioned (rows st) (rows st')))
    /\ nOpen = Z.of_nat (length (survivors (rows st')))
    /\ (forall other, other <> dbName -> srv' !! other = srv !! other).
Proof.
  intros Hst Hfault.
  exists (<[dbName := updateStore cutoff st]> srv), (updateStore cutoff st),
         (rowsAffected cutoff (rows st)),
         (countOpen (rows (updateStore cutoff st))).
  split; [unfold reapWispsInDB; rewrite Hst, Hfault; reflexivity|].
  split; [apply lookup_insert_eq|].
  split; [apply execClose_length|].
  split.
  { intros i w Hi. simpl.
    destruct (execClose_row (clock st) cutoff (rows st) i w Hi) as [Hyes Hno].
    repeat split; [exact Hyes | exact Hno |].
    intros Hclosed. apply Hno. intros [Hopen _].
    apply NotClosed_neq in Hopen. contradiction. }
  split; [apply rowsAffected_transitioned|].
  split; [apply countOpen_survivors|].
  intros other Hne. apply lookup_insert_ne. congruence.
Qed.

(** A store with one wisp of each status: three of them older than the
    cutoff 100, one younger. *)
Definition sampleRows : list Wisp :=
  [ mkWisp open 10 None; mkWisp hooked 20 None;
    mkWisp in_progress 150 None; mkWisp closed 5 (Some 7) ].

Definition sampleStore : Store := mkStore sampleRows 200 Healthy.

Definition sampleServer : gmap string Store :=
  <["hq" := sampleStore]> (<["beads" := mkStore [] 200 Healthy]> ∅).

Lemma C2_reap_in_one_store_witness :
  exists srv' st' reaped nOpen,
    reapWispsInDB sampleServer "hq" 100 = (srv', (reaped, nOpen, None))
    /\ srv' !! "hq" = Some st'
    /\ length (rows st') = length (rows sampleStore)
    /\ (forall i w, rows sampleStore !! i = Some w ->
          (Reapable 100 w ->
             rows st' !! i
             = Some {| status := closed; created_at := created_at w;
                       closed_at := Some (clock sampleStore) |})
          /\ (~ Reapable 100 w -> rows st' !! i = Some w)
          /\ (status w = closed -> rows st' !! i = Some w))
    /\ reaped = Z.of_nat (length (transitioned (rows sampleStore) (rows st')))
    /\ nOpen = Z.of_nat (length (survivors (rows st')))
    /\ (forall other, other <> "hq" -> srv' !! other = sampleServer !! other).
Proof.
  apply (C2_reap_in_one_store sampleServer "hq" 100 sampleStore).
  - vm_compute. reflexivity.
  - reflexivity.
Defined.

Example reap_sample_counts :
  snd (reapWispsInDB sampleServer "hq" 100) = (2, 1, None).
Proof. vm_compute. reflexivity. Qed.

Example reap_sample_rows :
  rows <$> (fst (reapWispsInDB sampleServer "hq" 100) !! "hq")
  = Some [ mkWisp closed 10 (Some 200); mkWisp closed 20 (Some 200);
           mkWisp in_progress 150 None; mkWisp closed 5 (Some 7) ].
Proof. vm_compute. reflexivity. Qed.

(** *** Monotonicity of the wisp status *)

Lemma wispStep_refl (w : Wisp) : wispStep w w.
Proof. unfold wispStep. repeat split; congruence. Qed.

Lemma wispStep_trans (a b c : Wisp) :
  wispStep a b -> wispStep b c -> wispStep a c.
Proof.
  intros (Hc1 & Hk1 & Hs1) (Hc2 & Hk2 & Hs2). unfold wispStep.
  split; [congruence|]. split.
  - intros Ha. pose proof (Hk1 Ha) as Hb. subst b. apply Hk2, Ha.
  - intros Hne.
    destruct (statusEqb (status c) (status b)) eqn:E.
    + assert (status c = status b) as Hcb
        by (destruct (status c), (status b); simpl in E; congruence).
      rewrite Hcb. apply Hs1. congruence.
    + apply Hs2. intros Hcb. rewrite Hcb in E.
      destruct (status b); discriminate.
Qed.

Lemma execClose_wispStep (now cutoff : Time) (table : list Wisp) :
  Forall2 wispStep table (execClose now cutoff table).
Proof.
  induction table as [|w table IH]; simpl; constructor; [|exact IH].
  destruct (isStale cutoff w) eqn:E.
  - unfold wispStep, closeWisp. simpl. split; [reflexivity|]. split.
    + intros Hclosed. rewrite (isStale_closed cutoff w Hclosed) in E.
      discriminate.
    + reflexivity.
  - apply wispStep_refl.
Qed.

Lemma storeStep_refl (st : Store) : storeStep st st.
Proof.
  unfold storeStep. repeat split.
  induction (rows st); constructor; [apply wispStep_refl | assumption].
Qed.

Lemma Forall2_wispStep_trans (a b c : list Wisp) :
  Forall2 wispStep a b -> Forall2 wispStep b c -> Forall2 wispStep a c.
Proof.
  intros Hab. revert c. induction Hab as [|x y a b Hxy Hab IH]; intros c Hbc.
  - inversion Hbc. constructor.
  - inversion Hbc as [|y' z b' c' Hyz Hbc' ]; subst.
    constructor; [eapply wispStep_trans; eassumption | apply IH, Hbc'].
Qed.

Lemma storeStep_trans (a b c : Store) :
  storeStep a b -> storeStep b c -> storeStep a c.
Proof.
  intros (Hk1 & Hf1 & Hr1) (Hk2 & Hf2 & Hr2). unfold storeStep.
  repeat split; [congruence | congruence |].
  eapply Forall2_wispStep_trans; eassumption.
Qed.

Lemma serverStep_refl (srv : gmap string Store) : serverStep srv srv.
Proof.
  intros name. destruct (srv !! name); constructor. apply storeStep_refl.
Qed.

Lemma serverStep_trans (a b c : gmap string Store) :
  serverStep a b -> serverStep b c -> serverStep a c.
Proof.
  intros Hab Hbc name. specialize (Hab name). specialize (Hbc name).
  destruct Hab as [x y Hxy|]; inversion Hbc; subst; constructor.
  eapply storeStep_trans; eassumption.
Qed.

Lemma updateStore_storeStep (cutoff : Time) (st : Store) :
  storeStep st (updateStore cutoff st).
Proof.
  unfold storeStep, updateStore. simpl. repeat split.
  apply execClose_wispStep.
Qed.

Lemma updateStore_idem (cutoff : Time) (st : Store) :
  updateStore cutoff (updateStore cutoff st) = updateStore cutoff st.
Proof. unfold updateStore. simpl. now rewrite execClose_idem. Qed.

(** The server after one invocation, database by database. *)
Lemma reapWispsInDB_lookup
    (srv : gmap string Store) (dbName : string) (cutoff : Time) (name : string) :
  fst (reapWispsInDB srv dbName cutoff) !! name
  = if decide (name = dbName) then
      match srv !! dbName with
      | Some st =>
          match fault st with
          | Healthy | CountFails => Some (updateStore cutoff st)
          | OpenFails | ExecFails => Some st
          end
      | None => None
      end
    else srv !! name.
Proof.
  unfold reapWispsInDB.
  destruct (srv !! dbName) as [st|] eqn:Hst; [destruct (fault st)|]; simpl;
    destruct (decide (name = dbName)) as [->|Hne];
    rewrite ?lookup_insert_eq, ?lookup_insert_ne by congruence;
    auto.
Qed.

Lemma reapWispsInDB_serverStep
    (srv : gmap string Store) (dbName : string) (cutoff : Time) :
  serverStep srv (fst (reapWispsInDB srv dbName cutoff)).
Proof.
  intros name. rewrite reapWispsInDB_lookup.
  destruct (decide (name = dbName)) as [->|Hne].
  - destruct (srv !! dbName) as [st|]; [|constructor].
    destruct (fault st); constructor;
      first [apply updateStore_storeStep | apply storeStep_refl].
  - apply serverStep_refl.
Qed.

(** *** The loop over the target databases *)

Lemma reapWispsInDB_error
    (srv : gmap string Store) (dbName : string) (cutoff : Time) :
  snd (snd (reapWispsInDB srv dbName cutoff)) = storeError srv dbName.
Proof.
  unfold reapWispsInDB, storeError.
  destruct (srv !! dbName) as [st|]; [destruct (fault st)|]; reflexivity.
Qed.

Lemma storeError_step
    (srv : gmap string Store) (dbName : string) (cutoff : Time) (name : string) :
  storeError (fst (reapWispsInDB srv dbName cutoff)) name = storeError srv name.
Proof.
  unfold storeError. rewrite reapWispsInDB_lookup.
  destruct (decide (name = dbName)) as [->|Hne]; [|reflexivity].
  destruct (srv !! dbName) as [st|]; [|reflexivity].
  destruct (fault st) eqn:Hf; simpl; rewrite Hf; reflexivity.
Qed.

Lemma openContribution_step
    (srv : gmap string Store) (dbName : string) (cutoff : Time) (name : string) :
  openContribution cutoff (fst (reapWispsInDB srv dbName cutoff)) name
  = openContribution cutoff srv name.
Proof.
  unfold openContribution. destruct (validDBName name); [|reflexivity].
  rewrite reapWispsInDB_lookup.
  destruct (decide (name = dbName)) as [->|Hne]; [|reflexivity].
  destruct (srv !! dbName) as [st|]; [|reflexivity].
  destruct (fault st) eqn:Hf; simpl; rewrite Hf;
    rewrite ?execClose_idem; reflexivity.
Qed.

Lemma reapStore_server (maxAge : Duration) (cutoff : Time) (s : Sweep) (dbName : string) :
  swServer (reapStore maxAge cutoff s dbName)
  = if validDBName dbName
    then fst (reapWispsInDB (swServer s) dbName cutoff)
    else swServer s.
Proof.
  unfold reapStore. destruct (validDBName dbName); simpl; [|reflexivity].
  destruct (reapWispsInDB (swServer s) dbName cutoff) as [srv [[r o] [e|]]];
    reflexivity.
Qed.

Lemma reapStore_totalOpen (maxAge : Duration) (cutoff : Time) (s : Sweep) (dbName : string) :
  totalOpen (reapStore maxAge cutoff s dbName)
  = totalOpen s + openContribution cutoff (swServer s) dbName.
Proof.
  unfold reapStore, openContribution, reapWispsInDB.
  destruct (validDBName dbName); simpl; [|lia].
  destruct (swServer s !! dbName) as [st|]; [destruct (fault st)|];
    simpl; lia.
Qed.

Lemma reapStore_serverStep (maxAge : Duration) (cutoff : Time) (s : Sweep) (dbName : string) :
  serverStep (swServer s) (swServer (reapStore maxAge cutoff s dbName)).
Proof.
  rewrite reapStore_server. destruct (validDBName dbName).
  - apply reapWispsInDB_serverStep.
  - apply serverStep_refl.
Qed.

Lemma reapLoop_cons (maxAge : Duration) (cutoff : Time)
    (dbName : string) (rest : list string) (s : Sweep) :
  reapLoop maxAge cutoff (dbName :: rest) s
  = reapLoop maxAge cutoff rest (reapStore maxAge cutoff s dbName).
Proof. reflexivity. Qed.

(** The loop goes on after any store: the stores after [dbName] are swept
    from the state that [dbName] left, whatever happened there. *)
Lemma reapLoop_app (maxAge : Duration) (cutoff : Time)
    (before after : list string) (s : Sweep) :
  reapLoop maxAge cutoff (before ++ after) s
  = reapLoop maxAge cutoff after (reapLoop maxAge cutoff before s).
Proof. unfold reapLoop. apply fold_left_app. Qed.

Lemma reapLoop_serverStep (maxAge : Duration) (cutoff : Time)
    (databases : list string) (s : Sweep) :
  serverStep (swServer s) (swServer (reapLoop maxAge cutoff databases s)).
Proof.
  revert s. induction databases as [|n rest IH]; intros s.
  - apply serverStep_refl.
  - rewrite reapLoop_cons. eapply serverStep_trans; [|apply IH].
    apply reapStore_serverStep.
Qed.

Lemma aggregateOpen_reapStore (maxAge : Duration) (cutoff : Time)
    (s : Sweep) (dbName : string) (databases : list string) :
  aggregateOpen cutoff (swServer (reapStore maxAge cutoff s dbName)) databases
  = aggregateOpen cutoff (swServer s) databases.
Proof.
  induction databases as [|n rest IH]; simpl; [reflexivity|].
  rewrite IH. f_equal. rewrite reapStore_server.
  destruct (validDBName dbName); [apply openContribution_step | reflexivity].
Qed.

(** The total the loop accumulates is the aggregate over the target list. *)
Lemma reapLoop_totalOpen (maxAge : Duration) (cutoff : Time)
    (databases : list string) (s : Sweep) :
  totalOpen (reapLoop maxAge cutoff databases s)
  = totalOpen s + aggregateOpen cutoff (swServer s) databases.
Proof.
  revert s. induction databases as [|n rest IH]; intros s.
  - simpl. lia.
  - rewrite reapLoop_cons, IH, reapStore_totalOpen, aggregateOpen_reapStore.
    simpl. lia.
Qed.

Lemma reapStore_emits (maxAge : Duration) (cutoff : Time) (s : Sweep) (dbName : string) :
  exists new,
    swLog (reapStore maxAge cutoff s dbName) = swLog s ++ new
    /\ forallb isLoopLine new = true
    /\ (validDBName dbName = false -> new = [LogSkipInvalid dbName])
    /\ (forall e, validDBName dbName = true ->
          storeError (swServer s) dbName = Some e ->
          new = [LogStoreError dbName e]).
Proof.
  unfold reapStore.
  pose proof (reapWispsInDB_error (swServer s) dbName cutoff) as Herr.
  destruct (validDBName dbName); simpl.
  - destruct (reapWispsInDB (swServer s) dbName cutoff) as [srv [[r o] [e|]]];
      simpl in *.
    + exists [LogStoreError dbName e]. repeat split; try discriminate.
      intros e' _ He'. congruence.
    + destruct (0 <? r).
      * exists [LogStoreReaped dbName r maxAge o].
        repeat split; try discriminate. intros e' _ He'. congruence.
      * exists []. rewrite app_nil_r.
        repeat split; try discriminate. intros e' _ He'. congruence.
  - exists [LogSkipInvalid dbName]. repeat split; discriminate.
Qed.

Lemma storeError_reapStore (maxAge : Duration) (cutoff : Time)
    (s : Sweep) (dbName name : string) :
  storeError (swServer (reapStore maxAge cutoff s dbName)) name
  = storeError (swServer s) name.
Proof.
  rewrite reapStore_server.
  destruct (validDBName dbName); [apply storeError_step | reflexivity].
Qed.

(** What the loop prints: only lines of its own, one skip line for every
    invalid name and one error line for every store that fails. *)
Lemma reapLoop_emits (maxAge : Duration) (cutoff : Time)
    (databases : list string) (s : Sweep) :
  exists new,
    swLog (reapLoop maxAge cutoff databases s) = swLog s ++ new
    /\ forallb isLoopLine new = true
    /\ (forall name, In name databases -> validDBName name = false ->
          In (LogSkipInvalid name) new)
    /\ (forall name e, In name databases -> validDBName name = true ->
          storeError (swServer s) name = Some e ->
          In (LogStoreError name e) new).
Proof.
  revert s. induction databases as [|n rest IH]; intros s.
  - exists []. simpl. rewrite app_nil_r. repeat split; intros; contradiction.
  - rewrite reapLoop_cons.
    destruct (reapStore_emits maxAge cutoff s n) as (new1 & E1 & L1 & Hskip & Herr).
    destruct (IH (reapStore maxAge cutoff s n)) as (new2 & E2 & L2 & Hskip2 & Herr2).
    exists (new1 ++ new2). rewrite E2, E1, <- app_assoc.
    split; [reflexivity|]. split; [rewrite forallb_app, L1, L2; reflexivity|].
    split.
    + intros name [->|Hin] Hinvalid; apply in_or_app.
      * left. rewrite (Hskip Hinvalid). left. reflexivity.
      * right. apply Hskip2; assumption.
    + intros name e [->|Hin] Hvalid He; apply in_or_app.
      * left. rewrite (Herr e Hvalid He). left. reflexivity.
      * right. apply Herr2; try assumption.
        rewrite storeError_reapStore. exact He.
Qed.

(** A healthy store with a valid name is reaped however the other target
    names fare, and stays reaped. *)
Lemma reapLoop_keeps_reaped (maxAge : Duration) (cutoff : Time)
    (databases : list string) (s : Sweep) (name : string) (st : Store) :
  swServer s !! name = Some (updateStore cutoff st) ->
  swServer (reapLoop maxAge cutoff databases s) !! name
  = Some (updateStore cutoff st).
Proof.
  revert s. induction databases as [|n rest IH]; intros s Hs; [exact Hs|].
  rewrite reapLoop_cons. apply IH. rewrite reapStore_server.
  destruct (validDBName n); [|exact Hs].
  rewrite reapWispsInDB_lookup.
  destruct (decide (name = n)) as [->|Hne]; [|exact Hs].
  rewrite Hs. destruct (fault (updateStore cutoff st));
    rewrite ?updateStore_idem; reflexivity.
Qed.

Lemma reapLoop_reaps_healthy (maxAge : Duration) (cutoff : Time)
    (databases : list string) (s : Sweep) (name : string) (st : Store) :
  In name databases ->
  validDBName name = true ->
  fault st = Healthy ->
  swServer s !! name = Some st
    \/ swServer s !! name = Some (updateStore cutoff st) ->
  swServer (reapLoop maxAge cutoff databases s) !! name
  = Some (updateStore cutoff st).
Proof.
  intros Hin Hvalid Hhealthy. revert s Hin.
  induction databases as [|n rest IH]; intros s Hin Hs; [contradiction|].
  rewrite reapLoop_cons.
  assert (swServer (reapStore maxAge cutoff s n) !! name
          = (if decide (name = n) then Some (updateStore cutoff st)
             else swServer s !! name)) as Hstep.
  { rewrite reapStore_server. destruct (decide (name = n)) as [->|Hne].
    - rewrite Hvalid, reapWispsInDB_lookup.
      destruct (decide (n = n)); [|congruence].
      destruct Hs as [-> | ->].
      + rewrite Hhealthy. reflexivity.
      + simpl. rewrite Hhealthy, updateStore_idem. reflexivity.
    - destruct (validDBName n); [|reflexivity].
      rewrite reapWispsInDB_lookup.
      destruct (decide (name = n)); [congruence | reflexivity]. }
  destruct (decide (name = n)) as [->|Hne].
  - apply reapLoop_keeps_reaped, Hstep.
  - destruct Hin as [Heq|Hin]; [congruence|].
    apply IH; [exact Hin|]. rewrite Hstep. exact Hs.
Qed.

(** A database that is not a valid target is never written. *)
Lemma reapLoop_untouched (maxAge : Duration) (cutoff : Time)
    (databases : list string) (s : Sweep) (name : string) :
  validDBName name = false \/ ~ In name databases ->
  swServer (reapLoop maxAge cutoff databases s) !! name = swServer s !! name.
Proof.
  revert s. induction databases as [|n rest IH]; intros s Hname; [reflexivity|].
  rewrite reapLoop_cons, IH.
  - rewrite reapStore_server. destruct (validDBName n) eqn:Hn; [|reflexivity].
    rewrite reapWispsInDB_lookup.
    destruct (decide (name = n)) as [->|Hne]; [|reflexivity].
    destruct Hname as [Hbad|Hnotin]; [congruence|].
    exfalso. apply Hnotin. left. reflexivity.
  - destruct Hname as [Hbad|Hnotin]; [left; exact Hbad|].
    right. intros Hin. apply Hnotin. right. exact Hin.
Qed.

(** *** The summary and the alert *)

Lemma reportTotals_alert (databases : list string) (s : Sweep) :
  exists tail,
    reportTotals databases s = swLog s ++ tail
    /\ (forall n t, In (LogThresholdWarning n t) tail
          <-> n = totalOpen s /\ t = wispAlertThreshold /\ 500 < totalOpen s)
    /\ (forall r k o, In (LogTotalReaped r k o) tail
          <-> r = totalReaped s /\ k = Z.of_nat (length databases)
              /\ o = totalOpen s /\ 0 < totalReaped s).
Proof.
  unfold reportTotals, wispAlertThreshold.
  destruct (0 <? totalReaped s) eqn:Hr; destruct (500 <? totalOpen s) eqn:Ho;
    [ exists [LogTotalReaped (totalReaped s) (Z.of_nat (length databases)) (totalOpen s);
              LogThresholdWarning (totalOpen s) 500]
    | exists [LogTotalReaped (totalReaped s) (Z.of_nat (length databases)) (totalOpen s)]
    | exists [LogThresholdWarning (totalOpen s) 500]
    | exists [] ];
    rewrite <- ?app_assoc, ?app_nil_r; (split; [reflexivity|]);
    try apply Z.ltb_lt in Hr; try apply Z.ltb_lt in Ho;
    try apply Z.ltb_ge in Hr; try apply Z.ltb_ge in Ho;
    split; intros; simpl; split; intros H;
    repeat match goal with
           | H : _ \/ _ |- _ => destruct H
           | H : False |- _ => destruct H
           | H : _ /\ _ |- _ => destruct H
           | H : LogTotalReaped _ _ _ = _ |- _ => inversion H; clear H; subst
           | H : LogThresholdWarning _ _ = _ |- _ => inversion H; clear H; subst
           end;
    subst; try discriminate; try lia; auto.
Qed.

Lemma isLoopLine_not_alert (new : list LogLine) (n t : Z) :
  forallb isLoopLine new = true -> ~ In (LogThresholdWarning n t) new.
Proof.
  intros Hall Hin. rewrite forallb_forall in Hall.
  specialize (Hall _ Hin). discriminate.
Qed.

Lemma targetDatabases_nonempty (config : WispReaperConfig) :
  targetDatabases config <> [].
Proof.
  unfold targetDatabases.
  destruct (Databases config) as [|n rest]; simpl; discriminate.
Qed.

Lemma sweep_nonempty (maxAge : Duration) (cutoff : Time)
    (databases : list string) (d : Daemon) :
  databases <> [] ->
  sweep maxAge cutoff databases d
  = {| patrolConfig := patrolConfig d;
       server := swServer (reapLoop maxAge cutoff databases (startSweep d));
       logger := reportTotals databases
                   (reapLoop maxAge cutoff databases (startSweep d)) |}.
Proof.
  intros Hne. unfold sweep. destruct databases; [congruence | reflexivity].
Qed.

Lemma reapWisps_enabled (now : Time) (d : Daemon)
    (pc : DaemonPatrolConfig) (p : PatrolsConfig) (config : WispReaperConfig) :
  patrolConfig d = Some pc -> Patrols pc = Some p -> WispReaper p = Some config ->
  IsPatrolEnabled (patrolConfig d) "wisp_reaper" = true ->
  reapWisps now d
  = Some (sweep (wispReaperMaxAge (patrolConfig d))
                (now - wispReaperMaxAge (patrolConfig d))
                (targetDatabases config) d).
Proof.
  intros Hpc Hp Hconfig Hon. unfold reapWisps.
  rewrite Hon. simpl. rewrite Hpc, Hp, Hconfig. reflexivity.
Qed.

(** The alert of a sweep over a non-empty target list. *)
Lemma sweep_alert (maxAge : Duration) (cutoff : Time)
    (databases : list string) (d : Daemon) :
  databases <> [] ->
  exists emitted,
    logger (sweep maxAge cutoff databases d) = logger d ++ emitted
    /\ forall n t, In (LogThresholdWarning n t) emitted
         <-> n = aggregateOpen cutoff (server d) databases
             /\ t = wispAlertThreshold
             /\ 500 < aggregateOpen cutoff (server d) databases.
Proof.
  intros Hne. rewrite (sweep_nonempty _ _ _ _ Hne). simpl.
  destruct (reapLoop_emits maxAge cutoff databases (startSweep d))
    as (new & Enew & Lnew & _ & _).
  destruct (reportTotals_alert databases
              (reapLoop maxAge cutoff databases (startSweep d)))
    as (tail & Etail & Halert & _).
  exists (new ++ tail). rewrite Etail, Enew, <- app_assoc.
  split; [reflexivity|]. intros n t.
  rewrite reapLoop_totalOpen in Halert. simpl in Halert.
  rewrite Z.add_0_l in Halert. rewrite <- Halert, in_app_iff.
  split; [|auto]. intros [Hin|Hin]; [|exact Hin].
  exfalso. exact (isLoopLine_not_alert new n t Lnew Hin).
Qed.

(** C3.  After a reap sweep the escalation warning is in the lines the sweep
    printed exactly when the aggregate open count over the target stores is
    strictly greater than 500: an aggregate of 501 prints it, an aggregate
    of exactly 500 prints no warning. *)
Theorem C3_alert_above_threshold (now : Time) (d : Daemon)
    (pc : DaemonPatrolConfig) (p : PatrolsConfig) (config : WispReaperConfig) :
  patrolConfig d = Some pc -> Patrols pc = Some p -> WispReaper p = Some config ->
  IsPatrolEnabled (patrolConfig d) "wisp_reaper" = true ->
  exists d' emitted aggregate,
    reapWisps now d = Some d'
    /\ logger d' = logger d ++ emitted
    /\ aggregate = aggregateOpen (now - wispReaperMaxAge (patrolConfig d))
                     (server d) (targetDatabases config)
    /\ (forall n t, In (LogThresholdWarning n t) emitted
          <-> n = aggregate /\ t = wispAlertThreshold /\ 500 < aggregate)
    /\ (aggregate = 501 -> In (LogThresholdWarning 501 500) emitted)
    /\ (aggregate = 500 -> forall n t, ~ In (LogThresholdWarning n t) emitted).
Proof.
  intros Hpc Hp Hconfig Hon.
  destruct (sweep_alert (wispReaperMaxAge (patrolConfig d))
              (now - wispReaperMaxAge (patrolConfig d))
              (targetDatabases config) d (targetDatabases_nonempty config))
    as (emitted & Elog & Halert).
  eexists _, emitted, _.
  split; [apply (reapWisps_enabled now d pc p config); assumption|].
  split; [exact Elog|]. split; [reflexivity|].
  split; [exact Halert|]. split.
  - intros H501. apply Halert. rewrite H501.
    unfold wispAlertThreshold. repeat split; lia.
  - intros H500 n t Hin. apply Halert in Hin. lia.
Qed.

(** C5.  For every list of target store names the sweep runs to its end:
    with no target it prints one line and changes nothing; otherwise every
    name that fails the allow-list gets its skip line and its database is left
    alone, every store whose invocation fails gets its error line, and every
    healthy store named in the list is reaped all the same, wherever the
    invalid and failing names stand in the list. *)
Theorem C5_sweep_tolerates_failures (maxAge : Duration) (cutoff : Time)
    (databases : list string) (d : Daemon) :
  exists emitted,
    logger (sweep maxAge cutoff databases d) = logger d ++ emitted
    /\ (databases = [] ->
          emitted = [LogNoDatabases]
          /\ server (sweep maxAge cutoff databases d) = server d)
    /\ (forall name, In name databases -> validDBName name = false ->
          In (LogSkipInvalid name) emitted
          /\ server (sweep maxAge cutoff databases d) !! name = server d !! name)
    /\ (forall name e, In name databases -> validDBName name = true ->
          storeError (server d) name = Some e ->
          In (LogStoreError name e) emitted)
    /\ (forall name st, In name databases -> validDBName name = true ->
          server d !! name = Some st -> fault st = Healthy ->
          server (sweep maxAge cutoff databases d) !! name
          = Some (updateStore cutoff st)).
Proof.
  destruct databases as [|n rest].
  - exists [LogNoDatabases]. simpl.
    repeat split; intros; try contradiction; reflexivity.
  - rewrite sweep_nonempty by discriminate. cbn [logger server].
    destruct (reapLoop_emits maxAge cutoff (n :: rest) (startSweep d))
      as (new & Enew & _ & Hskip & Herr).
    destruct (reportTotals_alert (n :: rest)
                (reapLoop maxAge cutoff (n :: rest) (startSweep d)))
      as (tail & Etail & _).
    exists (new ++ tail). rewrite Etail, Enew, <- app_assoc.
    split; [reflexivity|]. split; [discriminate|].
    split; [|split].
    + intros name Hin Hbad. split.
      * apply in_or_app. left. apply Hskip; assumption.
      * apply (reapLoop_untouched maxAge cutoff (n :: rest) (startSweep d)).
        left. exact Hbad.
    + intros name e Hin Hvalid He. apply in_or_app. left.
      apply (Herr name e); assumption.
    + intros name st Hin Hvalid Hst Hhealthy.
      apply (reapLoop_reaps_healthy maxAge cutoff (n :: rest) (startSweep d));
        try assumption.
      left. exact Hst.
Qed.

(** C9.  In a sweep, a store whose invocation returns an error leaves both
    running totals as they were and only adds its error line: the loop goes on
    from the totals it had before that store.  This also holds when the error
    is the one of the count query: the UPDATE has then closed the stale rows
    of the store and the invocation returned their number, and none of it
    reaches a total. *)
Theorem C9_errored_store_adds_nothing (maxAge : Duration) (cutoff : Time)
    (before after : list string) (s : Sweep) (dbName : string) (e : ReapError) :
  validDBName dbName = true ->
  snd (snd (reapWispsInDB
              (swServer (reapLoop maxAge cutoff before s)) dbName cutoff))
    = Some e ->
  reapLoop maxAge cutoff (before ++ dbName :: after) s
  = reapLoop maxAge cutoff after
      {| swServer := fst (reapWispsInDB
                            (swServer (reapLoop maxAge cutoff before s))
                            dbName cutoff);
         swLog := swLog (reapLoop maxAge cutoff before s)
                    ++ [LogStoreError dbName e];
         totalReaped := totalReaped (reapLoop maxAge cutoff before s);
         totalOpen := totalOpen (reapLoop maxAge cutoff before s) |}
  /\ (forall st,
        swServer (reapLoop maxAge cutoff before s) !! dbName = Some st ->
        fault st = CountFails ->
        e = ErrCountOpen
        /\ fst (fst (snd (reapWispsInDB
                            (swServer (reapLoop maxAge cutoff before s))
                            dbName cutoff)))
           = rowsAffected cutoff (rows st)
        /\ fst (reapWispsInDB
                  (swServer (reapLoop maxAge cutoff before s)) dbName cutoff)
             !! dbName
           = Some (updateStore cutoff st)).
Proof.
  intros Hvalid Herr. split.
  - rewrite reapLoop_app, reapLoop_cons. f_equal.
    unfold reapStore. rewrite Hvalid. simpl.
    destruct (reapWispsInDB (swServer (reapLoop maxAge cutoff before s))
                dbName cutoff) as [srv [[r o] err]].
    simpl in Herr. subst err. reflexivity.
  - intros st Hst Hfault. revert Herr. unfold reapWispsInDB.
    rewrite Hst, Hfault. simpl. intros Herr.
    split; [congruence|]. split; [reflexivity|]. apply lookup_insert_eq.
Qed.

(** C7.  Across a reap cycle of the daemon every wisp that was closed is
    found unchanged at its place (status, closed_at and all), and a wisp whose
    status did change is now closed: reaping never reopens a wisp. *)
Theorem C7_reaping_is_monotonic (now : Time) (d d' : Daemon)
    (dbName : string) (st : Store) (i : nat) (w : Wisp) :
  reapWisps now d = Some d' ->
  server d !! dbName = Some st ->
  rows st !! i = Some w ->
  exists st' w',
    server d' !! dbName = Some st'
    /\ length (rows st') = length (rows st)
    /\ rows st' !! i = Some w'
    /\ (status w = closed ->
          status w' = closed /\ closed_at w' = closed_at w /\ w' = w)
    /\ (status w' <> status w -> status w' = closed).
Proof.
  intros Hrun Hst Hi.
  assert (serverStep (server d) (server d')) as Hstep.
  { unfold reapWisps in Hrun.
    destruct (negb (IsPatrolEnabled (patrolConfig d) "wisp_reaper")).
    - injection Hrun as <-. apply serverStep_refl.
    - destruct (patrolConfig d) as [pc|]; [|discriminate].
      destruct (Patrols pc) as [p|]; [|discriminate].
      destruct (WispReaper p) as [config|]; [|discriminate].
      injection Hrun as <-. unfold sweep.
      destruct (length (targetDatabases config) =? 0)%nat; simpl.
      + apply serverStep_refl.
      + apply (reapLoop_serverStep _ _ _ (startSweep d)). }
  specialize (Hstep dbName). rewrite Hst in Hstep.
  inversion Hstep as [st0 st' (Hclock & Hfault & Hrows) E0 E1|]; subst.
  destruct (Forall2_lookup_l _ _ _ _ _ Hrows Hi) as (w' & Hi' & Hc & Hk & Hs).
  exists st', w'. split; [reflexivity|].
  split; [symmetry; eapply Forall2_length, Hrows|].
  split; [exact Hi'|]. split; [|exact Hs].
  intros Hclosed. rewrite (Hk Hclosed). auto.
Qed.

(** *** The two duration accessors *)

Lemma wispReaperInterval_cases (config : option DaemonPatrolConfig) :
  wispReaperInterval config
  = match reaperSection config with
    | Some r =>
        if String.eqb (IntervalStr r) EmptyString
        then defaultWispReaperInterval
        else match ParseDuration (IntervalStr r) with
             | Some d => if 0 <? d then d else defaultWispReaperInterval
             | None => defaultWispReaperInterval
             end
    | None => defaultWispReaperInterval
    end.
Proof.
  unfold wispReaperInterval, reaperSection.
  destruct config as [c|]; [|reflexivity].
  destruct (Patrols c) as [p|]; [|reflexivity].
  destruct (WispReaper p) as [r|]; [|reflexivity].
  destruct (String.eqb (IntervalStr r) EmptyString); reflexivity.
Qed.

Lemma wispReaperMaxAge_cases (config : option DaemonPatrolConfig) :
  wispReaperMaxAge config
  = match reaperSection config with
    | Some r =>
        if String.eqb (MaxAgeStr r) EmptyString
        then defaultWispMaxAge
        else match ParseDuration (MaxAgeStr r) with
             | Some d => if 0 <? d then d else defaultWispMaxAge
             | None => defaultWispMaxAge
             end
    | None => defaultWispMaxAge
    end.
Proof.
  unfold wispReaperMaxAge, reaperSection.
  destruct config as [c|]; [|reflexivity].
  destruct (Patrols c) as [p|]; [|reflexivity].
  destruct (WispReaper p) as [r|]; [|reflexivity].
  destruct (String.eqb (MaxAgeStr r) EmptyString); reflexivity.
Qed.

Lemma fallback_choice (str : string) (fallback : Duration) :
  FallsBack str ->
  (if String.eqb str EmptyString then fallback
   else match ParseDuration str with
        | Some d => if 0 <? d then d else fallback
        | None => fallback
        end) = fallback.
Proof.
  intros [-> | [Hnone | (d & Hd & Hle)]].
  - reflexivity.
  - rewrite Hnone. destruct (String.eqb str EmptyString); reflexivity.
  - rewrite Hd. destruct (String.eqb str EmptyString); [reflexivity|].
    destruct (0 <? d) eqn:E; [apply Z.ltb_lt in E; lia | reflexivity].
Qed.

Lemma wispReaperInterval_pos (config : option DaemonPatrolConfig) :
  0 < wispReaperInterval config.
Proof.
  assert (0 < defaultWispReaperInterval) as Hi by reflexivity.
  rewrite wispReaperInterval_cases.
  destruct (reaperSection config) as [r|]; [|exact Hi].
  destruct (String.eqb (IntervalStr r) EmptyString); [exact Hi|].
  destruct (ParseDuration (IntervalStr r)) as [dur|]; [|exact Hi].
  destruct (0 <? dur) eqn:E; [apply Z.ltb_lt, E | exact Hi].
Qed.

Lemma wispReaperMaxAge_pos (config : option DaemonPatrolConfig) :
  0 < wispReaperMaxAge config.
Proof.
  assert (0 < defaultWispMaxAge) as Ha by reflexivity.
  rewrite wispReaperMaxAge_cases.
  destruct (reaperSection config) as [r|]; [|exact Ha].
  destruct (String.eqb (MaxAgeStr r) EmptyString); [exact Ha|].
  destruct (ParseDuration (MaxAgeStr r)) as [dur|]; [|exact Ha].
  destruct (0 <? dur) eqn:E; [apply Z.ltb_lt, E | exact Ha].
Qed.

(** C6.  For every configuration both accessors return a positive duration,
    never zero; without a reaper section, or with a duration string that is
    empty, does not parse, or parses to zero or less, they return the
    compiled-in defaults: 30 minutes for the interval, 24 hours for the
    maximal age. *)
Theorem C6_durations_fall_back (config : option DaemonPatrolConfig) :
  0 < wispReaperInterval config
  /\ 0 < wispReaperMaxAge config
  /\ wispReaperInterval config <> 0
  /\ wispReaperMaxAge config <> 0
  /\ (reaperSection config = None ->
        wispReaperInterval config = 30 * Minute
        /\ wispReaperMaxAge config = 24 * Hour)
  /\ (forall r, reaperSection config = Some r -> FallsBack (IntervalStr r) ->
        wispReaperInterval config = 30 * Minute)
  /\ (forall r, reaperSection config = Some r -> FallsBack (MaxAgeStr r) ->
        wispReaperMaxAge config = 24 * Hour).
Proof.
  pose proof (wispReaperInterval_pos config) as Hpos1.
  pose proof (wispReaperMaxAge_pos config) as Hpos2.
  split; [exact Hpos1|]. split; [exact Hpos2|].
  split; [lia|]. split; [lia|].
  rewrite wispReaperInterval_cases, wispReaperMaxAge_cases.
  split; [intros ->; split; reflexivity|].
  split; intros r -> Hfb; apply (fallback_choice _ _ Hfb).
Qed.

(** *** Further properties of one invocation *)

Lemma rowsAffected_nonneg (cutoff : Time) (table : list Wisp) :
  0 <= rowsAffected cutoff table.
Proof. unfold rowsAffected. lia. Qed.

Lemma countOpen_nonneg (table : list Wisp) : 0 <= countOpen table.
Proof. unfold countOpen. lia. Qed.

(** Every wisp that was not closed is either reaped or still not closed. *)
Lemma open_rows_split (now cutoff : Time) (table : list Wisp) :
  countOpen table
  = rowsAffected cutoff table + countOpen (execClose now cutoff table).
Proof.
  unfold countOpen, rowsAffected, execClose.
  induction table as [|w table IH]; [reflexivity|].
  simpl. destruct (isStale cutoff w) eqn:E.
  - pose proof E as Hopen. apply andb_true_iff in Hopen as [Hopen _].
    rewrite Hopen. simpl. cbn [length]. lia.
  - destruct (isOpenStatus (status w)); cbn [length]; lia.
Qed.

Lemma isStale_mono (c1 c2 : Time) (w : Wisp) :
  c1 <= c2 -> isStale c1 w = true -> isStale c2 w = true.
Proof.
  unfold isStale. intros Hle H. apply andb_true_iff in H as [Hopen Hlt].
  apply Z.ltb_lt in Hlt. rewrite Hopen. simpl. apply Z.ltb_lt. lia.
Qed.

Lemma rowsAffected_mono (c1 c2 : Time) (table : list Wisp) :
  c1 <= c2 -> rowsAffected c1 table <= rowsAffected c2 table.
Proof.
  intros Hle. unfold rowsAffected.
  induction table as [|w table IH]; [reflexivity|].
  simpl. destruct (isStale c1 w) eqn:E1.
  - rewrite (isStale_mono c1 c2 w Hle E1). cbn [length]. lia.
  - destruct (isStale c2 w); cbn [length]; lia.
Qed.

(** After the UPDATE with a cutoff, an earlier cutoff matches no row. *)
Lemma execClose_earlier (now now' c1 c2 : Time) (table : list Wisp) :
  c1 <= c2 ->
  execClose now' c1 (execClose now c2 table) = execClose now c2 table.
Proof.
  intros Hle. unfold execClose. rewrite map_map. apply map_ext. intros w.
  destruct (isStale c2 w) eqn:E2.
  - rewrite isStale_closed; reflexivity.
  - destruct (isStale c1 w) eqn:E1; [|reflexivity].
    rewrite (isStale_mono c1 c2 w Hle E1) in E2. discriminate.
Qed.

Lemma rowsAffected_earlier (now c1 c2 : Time) (table : list Wisp) :
  c1 <= c2 -> rowsAffected c1 (execClose now c2 table) = 0.
Proof.
  intros Hle. unfold rowsAffected, execClose.
  induction table as [|w table IH]; [reflexivity|].
  simpl. destruct (isStale c2 w) eqn:E2.
  - rewrite isStale_closed by reflexivity. exact IH.
  - destruct (isStale c1 w) eqn:E1; [|exact IH].
    rewrite (isStale_mono c1 c2 w Hle E1) in E2. discriminate.
Qed.

Lemma reapWispsInDB_healthy
    (srv : gmap string Store) (dbName : string) (cutoff : Time) (st : Store) :
  srv !! dbName = Some st -> fault st = Healthy ->
  reapWispsInDB srv dbName cutoff
  = (<[dbName := updateStore cutoff st]> srv,
     (rowsAffected cutoff (rows st),
      countOpen (execClose (clock st) cutoff (rows st)), None)).
Proof.
  intros Hst Hfault. unfold reapWispsInDB. rewrite Hst, Hfault. reflexivity.
Qed.

(** X1.  On a store that answers both statements the invocation loses no
    wisp from its books: the wisps that were not closed before it are the
    reaped ones plus the ones it reports as still open, and neither count is
    negative. *)
Theorem X1_open_wisps_are_reaped_or_remain
    (srv : gmap string Store) (dbName : string) (cutoff : Time) (st : Store) :
  srv !! dbName = Some st ->
  fault st = Healthy ->
  exists srv' reaped nOpen,
    reapWispsInDB srv dbName cutoff = (srv', (reaped, nOpen, None))
    /\ countOpen (rows st) = reaped + nOpen
    /\ 0 <= reaped /\ 0 <= nOpen.
Proof.
  intros Hst Hfault. eexists _, _, _.
  split; [apply (reapWispsInDB_healthy srv dbName cutoff st Hst Hfault)|].
  split; [apply open_rows_split|].
  split; [apply rowsAffected_nonneg | apply countOpen_nonneg].
Qed.

(** X2.  Reaping is idempotent: a second invocation on the same store with
    the same cutoff reaps nothing, reports the same open count and leaves the
    server exactly as the first one left it. *)
Theorem X2_second_reap_finds_nothing
    (srv : gmap string Store) (dbName : string) (cutoff : Time) (st : Store) :
  srv !! dbName = Some st ->
  fault st = Healthy ->
  exists srv' reaped nOpen,
    reapWispsInDB srv dbName cutoff = (srv', (reaped, nOpen, None))
    /\ reapWispsInDB srv' dbName cutoff = (srv', (0, nOpen, None)).
Proof.
  intros Hst Hfault. eexists _, _, _.
  split; [apply (reapWispsInDB_healthy srv dbName cutoff st Hst Hfault)|].
  rewrite (reapWispsInDB_healthy _ dbName cutoff (updateStore cutoff st)
             (lookup_insert_eq _ _ _) Hfault).
  rewrite insert_insert_eq, updateStore_idem. simpl.
  rewrite rowsAffected_execClose, execClose_idem. reflexivity.
Qed.

(** X3.  A later cutoff (a shorter maximal age) reaps at least as much: it
    closes no fewer rows and leaves no more wisps open than an earlier
    cutoff does on the same store, and once it has run, the earlier cutoff
    finds nothing left to reap. *)
Theorem X3_later_cutoff_reaps_more
    (srv : gmap string Store) (dbName : string) (c1 c2 : Time) (st : Store) :
  srv !! dbName = Some st ->
  fault st = Healthy ->
  c1 <= c2 ->
  exists srv1 reaped1 open1 srv2 reaped2 open2,
    reapWispsInDB srv dbName c1 = (srv1, (reaped1, open1, None))
    /\ reapWispsInDB srv dbName c2 = (srv2, (reaped2, open2, None))
    /\ reaped1 <= reaped2
    /\ open2 <= open1
    /\ reapWispsInDB srv2 dbName c1 = (srv2, (0, open2, None)).
Proof.
  intros Hst Hfault Hle. eexists _, _, _, _, _, _.
  split; [apply (reapWispsInDB_healthy srv dbName c1 st Hst Hfault)|].
  split; [apply (reapWispsInDB_healthy srv dbName c2 st Hst Hfault)|].
  pose proof (rowsAffected_mono c1 c2 (rows st) Hle) as Hmono.
  pose proof (open_rows_split (clock st) c1 (rows st)) as H1.
  pose proof (open_rows_split (clock st) c2 (rows st)) as H2.
  split; [exact Hmono|]. split; [lia|].
  rewrite (reapWispsInDB_healthy _ dbName c1 (updateStore c2 st)
             (lookup_insert_eq _ _ _) Hfault).
  rewrite insert_insert_eq. unfold updateStore at 1 2 3. simpl.
  rewrite (rowsAffected_earlier _ c1 c2 _ Hle).
  rewrite (execClose_earlier _ _ c1 c2 _ Hle). reflexivity.
Qed.


(** X7.  A configured duration is honoured: with a reaper section whose
    string is not empty and parses to a positive duration, each accessor
    returns exactly that duration. *)
Theorem X7_configured_durations_are_honoured
    (config : option DaemonPatrolConfig) (r : WispReaperConfig) (d : Duration) :
  reaperSection config = Some r ->
  0 < d ->
  (IntervalStr r <> EmptyString -> ParseDuration (IntervalStr r) = Some d ->
     wispReaperInterval config = d)
  /\ (MaxAgeStr r <> EmptyString -> ParseDuration (MaxAgeStr r) = Some d ->
        wispReaperMaxAge config = d).
Proof.
  intros Hsection Hpos.
  rewrite wispReaperInterval_cases, wispReaperMaxAge_cases, Hsection.
  apply Z.ltb_lt in Hpos.
  split; intros Hne Hparse; rewrite Hparse, Hpos;
    apply String.eqb_neq in Hne; rewrite Hne; reflexivity.
Qed.

(** *** Further properties of the sweep *)


(** The lines one pass of the loop body prints. *)
Definition storeLines (maxAge : Duration) (cutoff : Time)
    (srv : gmap string Store) (dbName : string) : list LogLine :=
  if validDBName dbName then
    match snd (reapWispsInDB srv dbName cutoff) with
    | (_, _, Some e) => [LogStoreError dbName e]
    | (reaped, nOpen, None) =>
        if 0 <? reaped then [LogStoreReaped dbName reaped maxAge nOpen] else []
    end
  else [LogSkipInvalid dbName].

(** What one pass of the loop body adds to the reaped total. *)
Definition reapedContribution (cutoff : Time) (srv : gmap string Store)
    (dbName : string) : Z :=
  if validDBName dbName then
    match snd (reapWispsInDB srv dbName cutoff) with
    | (_, _, Some _) => 0
    | (reaped, _, None) => reaped
    end
  else 0.

(** The reaped counts of the per-store lines of a log, added up. *)
Definition reapedInLines (lines : list LogLine) : Z :=
  fold_right (fun l acc =>
                match l with
                | LogStoreReaped _ reaped _ _ => reaped + acc
                | _ => acc
                end) 0 lines.

(** The summary and the alert, as lines 175-184 append them. *)
Definition reportTail (nDatabases : nat) (reaped nOpen : Z) : list LogLine :=
  (if 0 <? reaped
   then [LogTotalReaped reaped (Z.of_nat nDatabases) nOpen] else [])
  ++ (if wispAlertThreshold <? nOpen
      then [LogThresholdWarning nOpen wispAlertThreshold] else []).



Lemma reapWispsInDB_reaped_nonneg
    (srv : gmap string Store) (dbName : string) (cutoff : Time) :
  0 <= fst (fst (snd (reapWispsInDB srv dbName cutoff))).
Proof.
  unfold reapWispsInDB.
  destruct (srv !! dbName) as [st|]; [destruct (fault st)|]; simpl;
    try lia; apply rowsAffected_nonneg.
Qed.


Lemma reapStore_log (maxAge : Duration) (cutoff : Time) (s : Sweep) (dbName : string) :
  swLog (reapStore maxAge cutoff s dbName)
  = swLog s ++ storeLines maxAge cutoff (swServer s) dbName.
Proof.
  unfold reapStore, storeLines. destruct (validDBName dbName); simpl;
    [|reflexivity].
  destruct (reapWispsInDB (swServer s) dbName cutoff) as [srv [[r o] [e|]]];
    simpl; [reflexivity|].
  destruct (0 <? r); [reflexivity | now rewrite app_nil_r].
Qed.

Lemma reapStore_totalReaped (maxAge : Duration) (cutoff : Time)
    (s : Sweep) (dbName : string) :
  totalReaped (reapStore maxAge cutoff s dbName)
  = totalReaped s + reapedContribution cutoff (swServer s) dbName.
Proof.
  unfold reapStore, reapedContribution. destruct (validDBName dbName); simpl;
    [|lia].
  destruct (reapWispsInDB (swServer s) dbName cutoff) as [srv [[r o] [e|]]];
    simpl; lia.
Qed.









Lemma reportTotals_tail (databases : list string) (s : Sweep) :
  reportTotals databases s
  = swLog s ++ reportTail (length databases) (totalReaped s) (totalOpen s).
Proof.
  unfold reportTotals, reportTail.
  destruct (0 <? totalReaped s); destruct (wispAlertThreshold <? totalOpen s);
    rewrite <- ?app_assoc, ?app_nil_r; reflexivity.
Qed.


Lemma reapedInLines_app (l1 l2 : list LogLine) :
  reapedInLines (l1 ++ l2) = reapedInLines l1 + reapedInLines l2.
Proof.
  unfold reapedInLines. induction l1 as [|l l1 IH]; simpl; [lia|].
  destruct l; lia.
Qed.

Lemma reapedInLines_storeLines (maxAge : Duration) (cutoff : Time)
    (srv : gmap string Store) (dbName : string) :
  reapedInLines (storeLines maxAge cutoff srv dbName)
  = reapedContribution cutoff srv dbName.
Proof.
  unfold storeLines, reapedContribution.
  destruct (validDBName dbName); [|reflexivity].
  pose proof (reapWispsInDB_reaped_nonneg srv dbName cutoff) as Hpos.
  destruct (snd (reapWispsInDB srv dbName cutoff)) as [[r o] [e|]];
    simpl in *; [reflexivity|].
  destruct (0 <? r) eqn:E; simpl; [lia|].
  apply Z.ltb_ge in E. lia.
Qed.

Lemma reapedInLines_reportTail (n : nat) (reaped nOpen : Z) :
  reapedInLines (reportTail n reaped nOpen) = 0.
Proof.
  unfold reportTail.
  destruct (0 <? reaped); destruct (wispAlertThreshold <? nOpen); reflexivity.
Qed.

(** The loop's log and totals, from the state it starts in. *)
Lemma reapLoop_books (maxAge : Duration) (cutoff : Time)
    (databases : list string) (s : Sweep) :
  exists new,
    swLog (reapLoop maxAge cutoff databases s) = swLog s ++ new
    /\ forallb isLoopLine new = true
    /\ totalReaped (reapLoop maxAge cutoff databases s)
       = totalReaped s + reapedInLines new.
Proof.
  revert s. induction databases as [|n rest IH]; intros s.
  - exists []. simpl. rewrite app_nil_r. repeat split. unfold reapedInLines.
    simpl. lia.
  - rewrite reapLoop_cons.
    destruct (IH (reapStore maxAge cutoff s n)) as (new & Elog & Hall & Etot).
    exists (storeLines maxAge cutoff (swServer s) n ++ new).
    rewrite Elog, Etot, reapStore_log, reapStore_totalReaped,
            reapedInLines_app, reapedInLines_storeLines, <- app_assoc.
    split; [reflexivity|]. split; [|lia].
    rewrite forallb_app, Hall, andb_true_r. unfold storeLines.
    destruct (validDBName n); [|reflexivity].
    destruct (snd (reapWispsInDB (swServer s) n cutoff)) as [[r o] [e|]];
      [reflexivity|].
    destruct (0 <? r); reflexivity.
Qed.

(** X6.  The books of a sweep agree with its log.  Among the lines a sweep
    prints, the summary is there exactly when the reaped counts of the
    per-store lines add up to more than zero; it then states that sum, the
    number of target names (skipped and failing ones included) and the
    aggregate open count. *)
Theorem X6_summary_agrees_with_store_lines (maxAge : Duration) (cutoff : Time)
    (databases : list string) (d : Daemon) :
  databases <> [] ->
  exists emitted,
    logger (sweep maxAge cutoff databases d) = logger d ++ emitted
    /\ forall r k o,
         In (LogTotalReaped r k o) emitted
         <-> r = reapedInLines emitted
             /\ k = Z.of_nat (length databases)
             /\ o = aggregateOpen cutoff (server d) databases
             /\ 0 < reapedInLines emitted.
Proof.
  intros Hne. rewrite (sweep_nonempty _ _ _ _ Hne). cbn [logger].
  destruct (reapLoop_books maxAge cutoff databases (startSweep d))
    as (new & Elog & Hall & Etot).
  rewrite reportTotals_tail, Elog, Etot, reapLoop_totalOpen. simpl.
  rewrite !Z.add_0_l, <- app_assoc.
  eexists. split; [reflexivity|]. intros r k o.
  rewrite reapedInLines_app, reapedInLines_reportTail, Z.add_0_r.
  rewrite in_app_iff. unfold reportTail. split.
  - intros [Hin|Hin].
    + rewrite forallb_forall in Hall. specialize (Hall _ Hin). discriminate.
    + destruct (0 <? reapedInLines new) eqn:E.
      * apply Z.ltb_lt in E. apply in_app_iff in Hin as [[Heq|[]]|Hin].
        -- inversion Heq; subst. auto.
        -- destruct (wispAlertThreshold <? _); simpl in Hin;
             [destruct Hin as [Heq|[]]; discriminate | contradiction].
      * simpl in Hin.
        destruct (wispAlertThreshold <? _); simpl in Hin;
          [destruct Hin as [Heq|[]]; discriminate | contradiction].
  - intros (-> & -> & -> & Hpos). right.
    apply Z.ltb_lt in Hpos. rewrite Hpos. left. reflexivity.
Qed.

Lemma created_at_kept (before after : list Wisp) :
  Forall2 wispStep before after ->
  map created_at after = map created_at before.
Proof.
  induction 1 as [|w w' l l' (Hc & _) _ IH]; simpl; [reflexivity|].
  now rewrite Hc, IH.
Qed.

Lemma sweep_log_extends (maxAge : Duration) (cutoff : Time)
    (databases : list string) (d : Daemon) :
  exists emitted,
    logger (sweep maxAge cutoff databases d) = logger d ++ emitted
    /\ (databases <> [] -> ~ In LogNoDatabases emitted).
Proof.
  destruct databases as [|n rest].
  - exists [LogNoDatabases]. split; [reflexivity | congruence].
  - rewrite sweep_nonempty by discriminate. cbn [logger].
    destruct (reapLoop_books maxAge cutoff (n :: rest) (startSweep d))
      as (new & Elog & Hall & _).
    rewrite reportTotals_tail, Elog, <- app_assoc.
    eexists. split; [reflexivity|]. intros _ Hin.
    apply in_app_iff in Hin as [Hin|Hin].
    + rewrite forallb_forall in Hall. specialize (Hall _ Hin). discriminate.
    + unfold reportTail in Hin.
      destruct (0 <? _), (wispAlertThreshold <? _); simpl in Hin;
        intuition discriminate.
Qed.

Lemma sweep_serverStep (maxAge : Duration) (cutoff : Time)
    (databases : list string) (d : Daemon) :
  serverStep (server d) (server (sweep maxAge cutoff databases d)).
Proof.
  unfold sweep. destruct (length databases =? 0)%nat; simpl.
  - apply serverStep_refl.
  - apply (reapLoop_serverStep _ _ _ (startSweep d)).
Qed.

(** What a cycle is, whether the patrol is enabled or not. *)
Lemma reapWisps_cases (now : Time) (d d' : Daemon) :
  reapWisps now d = Some d' ->
  d' = d
  \/ exists config,
       d' = sweep (wispReaperMaxAge (patrolConfig d))
                  (now - wispReaperMaxAge (patrolConfig d))
                  (targetDatabases config) d.
Proof.
  unfold reapWisps.
  destruct (negb (IsPatrolEnabled (patrolConfig d) "wisp_reaper"));
    [intros H; injection H as <-; left; reflexivity|].
  destruct (patrolConfig d) as [pc|]; [|discriminate].
  destruct (Patrols pc) as [p|]; [|discriminate].
  destruct (WispReaper p) as [config|]; [|discriminate].
  intros H. injection H as <-. right. exists config. reflexivity.
Qed.

(** X8.  What a cycle never does.  It keeps the patrol configuration, only
    appends to the log, neither creates nor drops a database, and in every
    database keeps the fault state, the clock, the number of rows and every
    created_at. *)
Theorem X8_cycle_keeps_the_shape_of_the_stores (now : Time) (d d' : Daemon) :
  reapWisps now d = Some d' ->
  patrolConfig d' = patrolConfig d
  /\ (exists emitted, logger d' = logger d ++ emitted)
  /\ dom (server d') = dom (server d)
  /\ forall name st',
       server d' !! name = Some st' ->
       exists st,
         server d !! name = Some st
         /\ clock st' = clock st /\ fault st' = fault st
         /\ map created_at (rows st') = map created_at (rows st).
Proof.
  intros Hrun.
  assert (patrolConfig d' = patrolConfig d
          /\ (exists emitted, logger d' = logger d ++ emitted)
          /\ serverStep (server d) (server d')) as (Hcfg & Hlog & Hstep).
  { destruct (reapWisps_cases now d d' Hrun) as [->|[config ->]].
    - split; [reflexivity|]. split; [exists []; now rewrite app_nil_r|].
      apply serverStep_refl.
    - split; [unfold sweep; destruct (_ =? _)%nat; reflexivity|].
      split; [|apply sweep_serverStep].
      destruct (sweep_log_extends (wispReaperMaxAge (patrolConfig d))
                  (now - wispReaperMaxAge (patrolConfig d))
                  (targetDatabases config) d) as (emitted & E & _).
      exists emitted. exact E. }
  split; [exact Hcfg|]. split; [exact Hlog|]. split.
  - apply set_eq. intros name. rewrite !elem_of_dom.
    specialize (Hstep name).
    destruct Hstep; split; intros [? ?]; try discriminate; eauto.
  - intros name st' Hst'. specialize (Hstep name). rewrite Hst' in Hstep.
    inversion Hstep as [st st0 (Hclock & Hfault & Hrows) E0 E1|]; subst.
    exists st. repeat split; try assumption.
    apply created_at_kept, Hrows.
Qed.

(** X9.  The cycle never prints "no databases to reap": an empty configured
    list falls back to the three discovered names, so the sweep always has
    targets. *)
Theorem X9_cycle_always_has_targets (now : Time) (d d' : Daemon) :
  reapWisps now d = Some d' ->
  exists emitted,
    logger d' = logger d ++ emitted /\ ~ In LogNoDatabases emitted.
Proof.
  intros Hrun. destruct (reapWisps_cases now d d' Hrun) as [->|[config ->]].
  - exists []. rewrite app_nil_r. split; [reflexivity | intros []].
  - destruct (sweep_log_extends (wispReaperMaxAge (patrolConfig d))
                (now - wispReaperMaxAge (patrolConfig d))
                (targetDatabases config) d) as (emitted & E & Hnone).
    exists emitted. split; [exact E|].
    apply Hnone, targetDatabases_nonempty.
Qed.

End Reaper.

(** *** A concrete daemon *)

(** One instance of [time.ParseDuration], for a sign, a whole number and one
    unit ("30m", "24h", "-5s", "0"); everything else is rejected. *)
Definition digitValue (c : ascii) : option Z :=
  let n := Z.of_N (N_of_ascii c) in
  if (48 <=? n) && (n <=? 57) then Some (n - 48) else None.

Fixpoint leadingInt (s : string) (acc : Z) : Z * string :=
  match s with
  | EmptyString => (acc, s)
  | String c rest =>
      match digitValue c with
      | Some v => leadingInt rest (10 * acc + v)
      | None => (acc, s)
      end
  end.

Definition unitOf (u : string) : option Duration :=
  if String.eqb u "ns" then Some 1
  else if String.eqb u "us" then Some 1000
  else if String.eqb u "ms" then Some 1000000
  else if String.eqb u "s" then Some Second
  else if String.eqb u "m" then Some Minute
  else if String.eqb u "h" then Some Hour
  else None.

Definition sampleParseDuration (s : string) : option Duration :=
  let '(neg, body) :=
    match s with
    | String c rest =>
        if Ascii.eqb c "-" then (true, rest)
        else if Ascii.eqb c "+" then (false, rest)
        else (false, s)
    | EmptyString => (false, s)
    end in
  if String.eqb body "0" then Some 0
  else
    match body with
    | EmptyString => None
    | String c _ =>
        match digitValue c with
        | None => None
        | Some _ =>
            let '(v, u) := leadingInt body 0 in
            match unitOf u with
            | Some k => Some (if neg : bool then - (v * k) else v * k)
            | None => None
            end
        end
    end.

(** One instance of [IsPatrolEnabled]: the reaper is opt-in and runs when its
    own section says so. *)
Definition sampleIsPatrolEnabled
    (config : option DaemonPatrolConfig) (patrol : string) : bool :=
  match config with
  | Some c =>
      match Patrols c with
      | Some p =>
          match WispReaper p with
          | Some r => String.eqb patrol "wisp_reaper" && Enabled r
          | None => false
          end
      | None => false
      end
  | None => false
  end.

(** One instance of the allow-list: a non-empty name of ASCII letters,
    digits, underscores and hyphens. *)
Definition isNameChar (c : ascii) : bool :=
  let n := Z.of_N (N_of_ascii c) in
  ((48 <=? n) && (n <=? 57)) || ((65 <=? n) && (n <=? 90))
  || ((97 <=? n) && (n <=? 122)) || (n =? 95) || (n =? 45).

Definition sampleValidDBName (name : string) : bool :=
  negb (String.eqb name EmptyString)
  && forallb isNameChar (list_ascii_of_string name).

Definition sampleNow : Time := 1000 * Hour.

Definition reaperConfig (interval maxAge : string) (databases : list string)
    : WispReaperConfig :=
  mkWispReaperConfig true interval maxAge databases.

Definition patrolsOf (r : WispReaperConfig) : DaemonPatrolConfig :=
  mkDaemonPatrolConfig (Some (mkPatrolsConfig (Some r))).

(** A daemon whose single store holds [n] young open wisps. *)
Definition crowdedDaemon (n : nat) : Daemon :=
  {| patrolConfig := Some (patrolsOf (reaperConfig EmptyString "24h" ["hq"]));
     server := <["hq" := mkStore (repeat (mkWisp open sampleNow None) n)
                           sampleNow Healthy]> ∅;
     logger := [] |}.

(** A daemon over the sample server; its target list holds a name the
    allow-list refuses, a database the server does not have, and [hq]. *)
Definition sampleDaemon : Daemon :=
  {| patrolConfig :=
       Some (patrolsOf (reaperConfig "0s" "soon" ["bad name"; "ghost"; "hq"]));
     server := sampleServer;
     logger := [] |}.

(** A server whose [hq] closes the stale rows and then fails the count. *)
Definition countFaultServer : gmap string Store :=
  <["hq" := mkStore sampleRows 200 CountFails]>
    (<["beads" := mkStore [] 200 Healthy]> ∅).

Example sample_durations :
  map sampleParseDuration ["30m"; "24h"; "0s"; "-5m"; "0"; "soon"; EmptyString]
  = [Some (30 * Minute); Some (24 * Hour); Some 0; Some (- (5 * Minute));
     Some 0; None; None].
Proof. vm_compute. reflexivity. Qed.

Example sample_names :
  map sampleValidDBName ["hq"; "beads"; "bad name"; "x`; DROP"; EmptyString]
  = [true; true; false; false; false].
Proof. vm_compute. reflexivity. Qed.

Lemma C3_alert_above_threshold_witness :
  (exists d',
     reapWisps sampleParseDuration sampleIsPatrolEnabled sampleValidDBName
       sampleNow (crowdedDaemon 501) = Some d'
     /\ In (LogThresholdWarning 501 500) (logger d'))
  /\ (exists d',
        reapWisps sampleParseDuration sampleIsPatrolEnabled sampleValidDBName
          sampleNow (crowdedDaemon 500) = Some d'
        /\ forall n t, ~ In (LogThresholdWarning n t) (logger d')).
Proof.
  split.
  - destruct (C3_alert_above_threshold sampleParseDuration sampleIsPatrolEnabled
                sampleValidDBName sampleNow (crowdedDaemon 501)
                (patrolsOf (reaperConfig EmptyString "24h" ["hq"]))
                (mkPatrolsConfig (Some (reaperConfig EmptyString "24h" ["hq"])))
                (reaperConfig EmptyString "24h" ["hq"])
                eq_refl eq_refl eq_refl eq_refl)
      as (d' & emitted & aggregate & Hrun & Hlog & Hagg & _ & H501 & _).
    exists d'. split; [exact Hrun|]. rewrite Hlog. apply H501.
    rewrite Hagg. vm_compute. reflexivity.
  - destruct (C3_alert_above_threshold sampleParseDuration sampleIsPatrolEnabled
                sampleValidDBName sampleNow (crowdedDaemon 500)
                (patrolsOf (reaperConfig EmptyString "24h" ["hq"]))
                (mkPatrolsConfig (Some (reaperConfig EmptyString "24h" ["hq"])))
                (reaperConfig EmptyString "24h" ["hq"])
                eq_refl eq_refl eq_refl eq_refl)
      as (d' & emitted & aggregate & Hrun & Hlog & Hagg & _ & _ & H500).
    exists d'. split; [exact Hrun|]. rewrite Hlog. apply H500.
    rewrite Hagg. vm_compute. reflexivity.
Defined.

Example crowded_501_log :
  logger <$> reapWisps sampleParseDuration sampleIsPatrolEnabled
               sampleValidDBName sampleNow (crowdedDaemon 501)
  = Some [LogThresholdWarning 501 500].
Proof. vm_compute. reflexivity. Qed.

Example crowded_500_log :
  logger <$> reapWisps sampleParseDuration sampleIsPatrolEnabled
               sampleValidDBName sampleNow (crowdedDaemon 500)
  = Some [].
Proof. vm_compute. reflexivity. Qed.

Lemma C5_sweep_tolerates_failures_witness :
  exists emitted,
    logger (sweep sampleValidDBName (24 * Hour) 100
              ["bad name"; "ghost"; "hq"] sampleDaemon) = emitted
    /\ In (LogSkipInvalid "bad name") emitted
    /\ In (LogStoreError "ghost" ErrCloseStale) emitted
    /\ server (sweep sampleValidDBName (24 * Hour) 100
                 ["bad name"; "ghost"; "hq"] sampleDaemon) !! "hq"
       = Some (updateStore 100 sampleStore).
Proof.
  destruct (C5_sweep_tolerates_failures sampleValidDBName (24 * Hour) 100
              ["bad name"; "ghost"; "hq"] sampleDaemon)
    as (emitted & Hlog & _ & Hskip & Herr & Hreaped).
  exists emitted. split; [exact Hlog|]. split; [|split].
  - apply (Hskip "bad name"); [simpl; auto | reflexivity].
  - apply (Herr "ghost" ErrCloseStale);
      [simpl; auto | reflexivity | vm_compute; reflexivity].
  - apply (Hreaped "hq" sampleStore);
      [simpl; auto | reflexivity | vm_compute; reflexivity | reflexivity].
Defined.

Example sample_sweep_log :
  logger (sweep sampleValidDBName (24 * Hour) 100
            ["bad name"; "ghost"; "hq"] sampleDaemon)
  = [ LogSkipInvalid "bad name"; LogStoreError "ghost" ErrCloseStale;
      LogStoreReaped "hq" 2 (24 * Hour) 1; LogTotalReaped 2 3 1 ].
Proof. vm_compute. reflexivity. Qed.

Example sweep_of_nothing :
  logger (sweep sampleValidDBName (24 * Hour) 100 [] sampleDaemon)
  = [LogNoDatabases].
Proof. reflexivity. Qed.

Lemma C6_durations_fall_back_witness :
  wispReaperInterval sampleParseDuration (patrolConfig sampleDaemon) = 30 * Minute
  /\ wispReaperMaxAge sampleParseDuration (patrolConfig sampleDaemon) = 24 * Hour.
Proof.
  destruct (C6_durations_fall_back sampleParseDuration (patrolConfig sampleDaemon))
    as (_ & _ & _ & _ & _ & Hinterval & Hage).
  split.
  - apply (Hinterval (reaperConfig "0s" "soon" ["bad name"; "ghost"; "hq"]));
      [reflexivity|].
    right. right. exists 0. split; [vm_compute; reflexivity | lia].
  - apply (Hage (reaperConfig "0s" "soon" ["bad name"; "ghost"; "hq"]));
      [reflexivity|].
    right. left. vm_compute. reflexivity.
Defined.

Example configured_durations_are_used :
  wispReaperInterval sampleParseDuration
    (Some (patrolsOf (reaperConfig "45m" "12h" []))) = 45 * Minute
  /\ wispReaperMaxAge sampleParseDuration
       (Some (patrolsOf (reaperConfig "45m" "12h" []))) = 12 * Hour.
Proof. split; vm_compute; reflexivity. Qed.

(** The sample daemon after one cycle at the instant 150. *)
Definition sampleDaemonAfter : Daemon :=
  match reapWisps sampleParseDuration sampleIsPatrolEnabled sampleValidDBName
          150 sampleDaemon with
  | Some d' => d'
  | None => sampleDaemon
  end.

Lemma C7_reaping_is_monotonic_witness :
  exists st' w',
    server sampleDaemonAfter !! "hq" = Some st'
    /\ length (rows st') = length (rows sampleStore)
    /\ rows st' !! 3%nat = Some w'
    /\ (status (mkWisp closed 5 (Some 7)) = closed ->
          status w' = closed
          /\ closed_at w' = closed_at (mkWisp closed 5 (Some 7))
          /\ w' = mkWisp closed 5 (Some 7))
    /\ (status w' <> status (mkWisp closed 5 (Some 7)) -> status w' = closed).
Proof.
  apply (C7_reaping_is_monotonic sampleParseDuration sampleIsPatrolEnabled
           sampleValidDBName 150 sampleDaemon sampleDaemonAfter
           "hq" sampleStore 3%nat (mkWisp closed 5 (Some 7))).
  - vm_compute. reflexivity.
  - vm_compute. reflexivity.
  - reflexivity.
Defined.

Lemma C9_errored_store_adds_nothing_witness :
  reapLoop sampleValidDBName (24 * Hour) 100 ([] ++ "hq" :: ["beads"])
    (mkSweep countFaultServer [] 0 0)
  = reapLoop sampleValidDBName (24 * Hour) 100 ["beads"]
      {| swServer := fst (reapWispsInDB countFaultServer "hq" 100);
         swLog := [] ++ [LogStoreError "hq" ErrCountOpen];
         totalReaped := 0; totalOpen := 0 |}
  /\ fst (fst (snd (reapWispsInDB countFaultServer "hq" 100))) = 2
  /\ fst (reapWispsInDB countFaultServer "hq" 100) !! "hq"
     = Some (updateStore 100 (mkStore sampleRows 200 CountFails)).
Proof.
  destruct (C9_errored_store_adds_nothing sampleValidDBName (24 * Hour) 100
              [] ["beads"] (mkSweep countFaultServer [] 0 0) "hq" ErrCountOpen
              eq_refl eq_refl) as [Hloop Hcount].
  split; [exact Hloop|].
  destruct (Hcount (mkStore sampleRows 200 CountFails)) as (_ & Hreaped & Hsrv).
  - vm_compute. reflexivity.
  - reflexivity.
  - split; [|exact Hsrv].
    transitivity (rowsAffected 100 sampleRows); [exact Hreaped | reflexivity].
Defined.

(** With the count query failing, the two stale rows are closed in the store
    and the cycle still reports nothing: no summary, no alert. *)
Example count_fault_cycle :
  let d := {| patrolConfig :=
                Some (patrolsOf (reaperConfig EmptyString EmptyString ["hq"]));
              server := countFaultServer; logger := [] |} in
  let d' := sweep sampleValidDBName (24 * Hour) 100 ["hq"] d in
  logger d' = [LogStoreError "hq" ErrCountOpen]
  /\ rows <$> (server d' !! "hq")
     = Some [ mkWisp closed 10 (Some 200); mkWisp closed 20 (Some 200);
              mkWisp in_progress 150 None; mkWisp closed 5 (Some 7) ].
Proof. split; vm_compute; reflexivity. Qed.

(** *** The further properties on the concrete daemon *)

Lemma X1_open_wisps_are_reaped_or_remain_witness :
  exists srv' reaped nOpen,
    reapWispsInDB sampleServer "hq" 100 = (srv', (reaped, nOpen, None))
    /\ countOpen (rows sampleStore) = reaped + nOpen
    /\ 0 <= reaped /\ 0 <= nOpen.
Proof.
  apply (X1_open_wisps_are_reaped_or_remain sampleServer "hq" 100 sampleStore).
  - vm_compute. reflexivity.
  - reflexivity.
Defined.

Lemma X2_second_reap_finds_nothing_witness :
  exists srv' reaped nOpen,
    reapWispsInDB sampleServer "hq" 100 = (srv', (reaped, nOpen, None))
    /\ reapWispsInDB srv' "hq" 100 = (srv', (0, nOpen, None)).
Proof.
  apply (X2_second_reap_finds_nothing sampleServer "hq" 100 sampleStore).
  - vm_compute. reflexivity.
  - reflexivity.
Defined.

Lemma X3_later_cutoff_reaps_more_witness :
  exists srv1 reaped1 open1 srv2 reaped2 open2,
    reapWispsInDB sampleServer "hq" 15 = (srv1, (reaped1, open1, None))
    /\ reapWispsInDB sampleServer "hq" 100 = (srv2, (reaped2, open2, None))
    /\ reaped1 <= reaped2
    /\ open2 <= open1
    /\ reapWispsInDB srv2 "hq" 15 = (srv2, (0, open2, None)).
Proof.
  apply (X3_later_cutoff_reaps_more sampleServer "hq" 15 100 sampleStore).
  - vm_compute. reflexivity.
  - reflexivity.
  - lia.
Defined.

Example cutoffs_compared :
  snd (reapWispsInDB sampleServer "hq" 15) = (1, 2, None)
  /\ snd (reapWispsInDB sampleServer "hq" 100) = (2, 1, None).
Proof. split; vm_compute; reflexivity. Qed.



Example two_orders_two_logs :
  logger (sweep sampleValidDBName (24 * Hour) 100 ["ghost"; "hq"] sampleDaemon)
  = [ LogStoreError "ghost" ErrCloseStale;
      LogStoreReaped "hq" 2 (24 * Hour) 1; LogTotalReaped 2 2 1 ]
  /\ logger (sweep sampleValidDBName (24 * Hour) 100 ["hq"; "ghost"] sampleDaemon)
     = [ LogStoreReaped "hq" 2 (24 * Hour) 1;
         LogStoreError "ghost" ErrCloseStale; LogTotalReaped 2 2 1 ].
Proof. split; vm_compute; reflexivity. Qed.

Lemma X6_summary_agrees_with_store_lines_witness :
  exists emitted,
    logger (sweep sampleValidDBName (24 * Hour) 100
              ["bad name"; "ghost"; "hq"] sampleDaemon)
    = logger sampleDaemon ++ emitted
    /\ forall r k o,
         In (LogTotalReaped r k o) emitted
         <-> r = reapedInLines emitted
             /\ k = Z.of_nat (length ["bad name"; "ghost"; "hq"])
             /\ o = aggregateOpen sampleValidDBName 100 (server sampleDaemon)
                      ["bad name"; "ghost"; "hq"]
             /\ 0 < reapedInLines emitted.
Proof.
  apply (X6_summary_agrees_with_store_lines sampleValidDBName (24 * Hour) 100
           ["bad name"; "ghost"; "hq"] sampleDaemon).
  discriminate.
Defined.

Lemma X7_configured_durations_are_honoured_witness :
  wispReaperInterval sampleParseDuration
    (Some (patrolsOf (reaperConfig "45m" "45m" []))) = 45 * Minute
  /\ wispReaperMaxAge sampleParseDuration
       (Some (patrolsOf (reaperConfig "45m" "45m" []))) = 45 * Minute.
Proof.
  destruct (X7_configured_durations_are_honoured sampleParseDuration
              (Some (patrolsOf (reaperConfig "45m" "45m" [])))
              (reaperConfig "45m" "45m" []) (45 * Minute) eq_refl eq_refl)
    as [Hinterval Hage].
  split.
  - apply Hinterval; [discriminate | vm_compute; reflexivity].
  - apply Hage; [discriminate | vm_compute; reflexivity].
Defined.

Lemma X8_cycle_keeps_the_shape_of_the_stores_witness :
  patrolConfig sampleDaemonAfter = patrolConfig sampleDaemon
  /\ (exists emitted, logger sampleDaemonAfter = logger sampleDaemon ++ emitted)
  /\ dom (server sampleDaemonAfter) = dom (server sampleDaemon)
  /\ forall name st',
       server sampleDaemonAfter !! name = Some st' ->
       exists st,
         server sampleDaemon !! name = Some st
         /\ clock st' = clock st /\ fault st' = fault st
         /\ map created_at (rows st') = map created_at (rows st).
Proof.
  apply (X8_cycle_keeps_the_shape_of_the_stores sampleParseDuration
           sampleIsPatrolEnabled sampleValidDBName 150 sampleDaemon
           sampleDaemonAfter).
  vm_compute. reflexivity.
Defined.

(** A daemon whose configured target list is empty. *)
Definition discoveringDaemon : Daemon :=
  {| patrolConfig := Some (patrolsOf (reaperConfig EmptyString EmptyString []));
     server := sampleServer;
     logger := [] |}.

Definition discoveringDaemonAfter : Daemon :=
  match reapWisps sampleParseDuration sampleIsPatrolEnabled sampleValidDBName
          sampleNow discoveringDaemon with
  | Some d' => d'
  | None => discoveringDaemon
  end.

Lemma X9_cycle_always_has_targets_witness :
  exists emitted,
    logger discoveringDaemonAfter = logger discoveringDaemon ++ emitted
    /\ ~ In LogNoDatabases emitted.
Proof.
  apply (X9_cycle_always_has_targets sampleParseDuration sampleIsPatrolEnabled
           sampleValidDBName sampleNow discoveringDaemon discoveringDaemonAfter).
  vm_compute. reflexivity.
Defined.

Example discovery_log :
  logger discoveringDaemonAfter
  = [ LogStoreReaped "hq" 3 (24 * Hour) 0;
      LogStoreError "gastown" ErrCloseStale; LogTotalReaped 3 3 0 ].
Proof. vm_compute. reflexivity. Qed.

End Daemon.

(** ** internal/config: operational thresholds *)

(** Receivers and sub-structs are pointers, hence options.  Every dereference
    of the source stands behind a nil test, so each accessor below is a total
    function with a branch for nil and needs no outcome for a panic. *)

Module Config.
Import GoTime.

(** Compiled-in defaults for operational thresholds. *)

(** Session defaults. *)
Definition DefaultClaudeStartTimeout : Duration := 60 * Second.
Definition DefaultShellReadyTimeout : Duration := 5 * Second.
Definition DefaultGracefulShutdownTimeout : Duration := 3 * Second.
Definition DefaultBdCommandTimeout : Duration := 30 * Second.
Definition DefaultBdSubprocessTimeout : Duration := 5 * Second.
Definition DefaultGUPPViolationTimeout : Duration := 30 * Minute.
Definition DefaultHungSessionThreshold : Duration := 30 * Minute.
Definition DefaultStartupNudgeVerifyDelay : Duration := 5 * Second.
Definition DefaultStartupNudgeMaxRetries : Z := 3.

(** Nudge defaults. *)
Definition DefaultNudgeReadyTimeout : Duration := 10 * Second.
Definition DefaultNudgeRetryInterval : Duration := 500 * Millisecond.
Definition DefaultNudgeLockTimeout : Duration := 30 * Second.
Definition DefaultNudgeNormalTTL : Duration := 30 * Minute.
Definition DefaultNudgeUrgentTTL : Duration := 2 * Hour.
Definition DefaultNudgeMaxQueueDepth : Z := 50.
Definition DefaultNudgeStaleClaimTimeout : Duration := 5 * Minute.

(** Daemon defaults. *)
Definition DefaultMassDeathWindow : Duration := 30 * Second.
Definition DefaultMassDeathThreshold : Z := 3.
Definition DefaultDogIdleSessionTimeout : Duration := 1 * Hour.
Definition DefaultDogIdleRemoveTimeout : Duration := 4 * Hour.
Definition DefaultStaleWorkingTimeout : Duration := 2 * Hour.
Definition DefaultMaxDogPoolSize : Z := 4.
Definition DefaultMaxLifecycleMessageAge : Duration := 6 * Hour.
Definition DefaultSyncFailureEscalationThreshold : Z := 3.
Definition DefaultDoctorMolCooldown : Duration := 5 * Minute.
Definition DefaultRecoveryHeartbeatInterval : Duration := 3 * Minute.
Definition DefaultBootSpawnCooldown : Duration := 2 * Minute.
Definition DefaultDeaconGracePeriod : Duration := 5 * Minute.

(** Deacon defaults. *)
Definition DefaultDeaconPingTimeout : Duration := 30 * Second.
Definition DefaultDeaconConsecutiveFailures : Z := 3.
Definition DefaultDeaconCooldown : Duration := 5 * Minute.
Definition DefaultDeaconHeartbeatStaleThreshold : Duration := 5 * Minute.
Definition DefaultDeaconHeartbeatVeryStale : Duration := 15 * Minute.
Definition DefaultMaxRedispatches : Z := 3.
Definition DefaultRedispatchCooldown : Duration := 5 * Minute.
Definition DefaultMaxFeedsPerCycle : Z := 3.
Definition DefaultFeedCooldown : Duration := 10 * Minute.

(** Polecat defaults. *)
Definition DefaultPolecatHeartbeatStale : Duration := 3 * Minute.
Definition DefaultPolecatDoltMaxRetries : Z := 10.
Definition DefaultPolecatDoltBaseBackoff : Duration := 500 * Millisecond.
Definition DefaultPolecatDoltBackoffMax : Duration := 30 * Second.
Definition DefaultPolecatPendingMaxAge : Duration := 5 * Minute.
Definition DefaultPolecatNamepoolSize : Z := 50.

(** Dolt defaults. *)
Definition DefaultDoltHealthCheckInterval : Duration := 30 * Second.
Definition DefaultDoltCmdTimeout : Duration := 15 * Second.
Definition DefaultDoltMaxConnections : Z := 1000.
Definition DefaultDoltSlowQueryThreshold : Duration := 1 * Second.

(** Mail defaults. *)
Definition DefaultMailIdleNotifyTimeout : Duration := 3 * Second.
Definition DefaultMailBdReadTimeout : Duration := 60 * Second.
Definition DefaultMailBdWriteTimeout : Duration := 60 * Second.
Definition DefaultMailMaxConcurrentAcks : Z := 8.

(** Web defaults. *)
Definition DefaultWebMaxConcurrentCmds : Z := 12.
Definition DefaultWebMaxSubjectLen : Z := 500.
Definition DefaultWebMaxBodyLen : Z := 100000.

Record SessionThresholds := mkSessionThresholds {
  ClaudeStartTimeout : string;
  ShellReadyTimeout : string;
  GracefulShutdownTimeout : string;
  BdCommandTimeout : string;
  BdSubprocessTimeout : string;
  GUPPViolationTimeout : string;
  HungSessionThreshold : string;
  StartupNudgeVerifyDelay : string;
  StartupNudgeMaxRetries : option Z
}.

(** [&SessionThresholds{}]: every field at its zero value. *)
Definition emptySessionThresholds : SessionThresholds :=
  mkSessionThresholds EmptyString EmptyString EmptyString EmptyString
    EmptyString EmptyString EmptyString EmptyString None.

Record NudgeThresholds := mkNudgeThresholds {
  ReadyTimeout : string;
  RetryInterval : string;
  LockTimeout : string;
  NormalTTL : string;
  UrgentTTL : string;
  MaxQueueDepth : option Z;
  StaleClaimThreshold : string
}.

(** [&NudgeThresholds{}]: every field at its zero value. *)
Definition emptyNudgeThresholds : NudgeThresholds :=
  mkNudgeThresholds EmptyString EmptyString EmptyString EmptyString
    EmptyString None EmptyString.

Record DaemonThresholds := mkDaemonThresholds {
  MassDeathWindow : string;
  MassDeathThreshold : option Z;
  DogIdleSessionTimeout : string;
  DogIdleRemoveTimeout : string;
  StaleWorkingTimeout : string;
  MaxDogPoolSize : option Z;
  MaxLifecycleMessageAge : string;
  SyncFailureEscalationThreshold : option Z;
  DoctorMolCooldown : string;
  RecoveryHeartbeatInterval : string;
  BootSpawnCooldown : string;
  DeaconGracePeriod : string
}.

(** [&DaemonThresholds{}]: every field at its zero value. *)
Definition emptyDaemonThresholds : DaemonThresholds :=
  mkDaemonThresholds EmptyString None EmptyString EmptyString EmptyString None
    EmptyString None EmptyString EmptyString EmptyString EmptyString.

(** [HeartbeatStaleThreshold] and its accessor exist on both the deacon and
    the polecat thresholds; here each carries the name of its struct. *)
Record DeaconThresholds := mkDeaconThresholds {
  PingTimeout : string;
  ConsecutiveFailures : option Z;
  Cooldown : string;
  Deacon_HeartbeatStaleThreshold : string;
  HeartbeatVeryStaleThreshold : string;
  MaxRedispatches : option Z;
  RedispatchCooldown : string;
  MaxFeedsPerCycle : option Z;
  FeedCooldown : string
}.

(** [&DeaconThresholds{}]: every field at its zero value. *)
Definition emptyDeaconThresholds : DeaconThresholds :=
  mkDeaconThresholds EmptyString None EmptyString EmptyString EmptyString None
    EmptyString None EmptyString.

Record PolecatThresholds := mkPolecatThresholds {
  Polecat_HeartbeatStaleThreshold : string;
  DoltMaxRetries : option Z;
  DoltBaseBackoff : string;
  DoltBackoffMax : string;
  PendingMaxAge : string;
  NamepoolSize : option Z
}.

(** [&PolecatThresholds{}]: every field at its zero value. *)
Definition emptyPolecatThresholds : PolecatThresholds :=
  mkPolecatThresholds EmptyString None EmptyString EmptyString EmptyString None.

Record DoltThresholds := mkDoltThresholds {
  HealthCheckInterval : string;
  CmdTimeout : string;
  MaxConnections : option Z;
  SlowQueryThreshold : string
}.

(** [&DoltThresholds{}]: every field at its zero value. *)
Definition emptyDoltThresholds : DoltThresholds :=
  mkDoltThresholds EmptyString EmptyString None EmptyString.

Record MailThresholds := mkMailThresholds {
  IdleNotifyTimeout : string;
  BdReadTimeout : string;
  BdWriteTimeout : string;
  MaxConcurrentAckOps : option Z
}.

(** [&MailThresholds{}]: every field at its zero value. *)
Definition emptyMailThresholds : MailThresholds :=
  mkMailThresholds EmptyString EmptyString EmptyString None.

Record WebThresholds := mkWebThresholds {
  MaxConcurrentCommands : option Z;
  MaxSubjectLen : option Z;
  MaxBodyLen : option Z
}.

(** [&WebThresholds{}]: every field at its zero value. *)
Definition emptyWebThresholds : WebThresholds :=
  mkWebThresholds None None None.

Record OperationalConfig := mkOperationalConfig {
  Session : option SessionThresholds;
  Nudge : option NudgeThresholds;
  Daemon : option DaemonThresholds;
  Deacon : option DeaconThresholds;
  Polecat : option PolecatThresholds;
  Dolt : option DoltThresholds;
  Mail : option MailThresholds;
  Web : option WebThresholds
}.

(** [&OperationalConfig{}]. *)
Definition emptyOperationalConfig : OperationalConfig :=
  mkOperationalConfig None None None None None None None None.

(** [TownSettings], of which only the operational section is read here. *)
Record TownSettings := mkTownSettings {
  Operational : option OperationalConfig
}.

Section Accessors.

(** [ParseDurationOrDefault], a helper of package config that is defined in
    another file: the duration that the string spells, or the fallback. *)
Variable ParseDurationOrDefault : string -> Duration -> Duration.

(** [filepath.Join]. *)
Variable filepathJoin : list string -> string.

(** [LoadOrCreateTownSettings]: the settings it returns (possibly nil) and
    whether it returned an error. *)
Variable LoadOrCreateTownSettings : string -> option TownSettings * bool.

(** [LoadOperationalConfig] (lines 101-108). *)
Definition LoadOperationalConfig (townRoot : string) : option OperationalConfig :=
  let settingsPath := filepathJoin [townRoot; "settings"; "config.json"] in
  let '(ts, err) := LoadOrCreateTownSettings settingsPath in
  if err then Some emptyOperationalConfig
  else
    match ts with
    | None => Some emptyOperationalConfig
    | Some ts' =>
        match Operational ts' with
        | None => Some emptyOperationalConfig
        | Some op => Some op
        end
    end.

(** *** Accessor methods *)

(** [GetSessionConfig] returns the session thresholds, never nil. *)
Definition GetSessionConfig (c : option OperationalConfig) : option SessionThresholds :=
  match c with
  | Some c' =>
      match Session c' with
      | Some x => Some x
      | None => Some emptySessionThresholds
      end
  | None => Some emptySessionThresholds
  end.

Definition ClaudeStartTimeoutD (r : option SessionThresholds) : Duration :=
  match r with
  | Some x => ParseDurationOrDefault (ClaudeStartTimeout x) DefaultClaudeStartTimeout
  | None => DefaultClaudeStartTimeout
  end.

Definition ShellReadyTimeoutD (r : option SessionThresholds) : Duration :=
  match r with
  | Some x => ParseDurationOrDefault (ShellReadyTimeout x) DefaultShellReadyTimeout
  | None => DefaultShellReadyTimeout
  end.

Definition GracefulShutdownTimeoutD (r : option SessionThresholds) : Duration :=
  match r with
  | Some x =>
      ParseDurationOrDefault (GracefulShutdownTimeout x)
        DefaultGracefulShutdownTimeout
  | None => DefaultGracefulShutdownTimeout
  end.

Definition BdCommandTimeoutD (r : option SessionThresholds) : Duration :=
  match r with
  | Some x => ParseDurationOrDefault (BdCommandTimeout x) DefaultBdCommandTimeout
  | None => DefaultBdCommandTimeout
  end.

Definition BdSubprocessTimeoutD (r : option SessionThresholds) : Duration :=
  match r with
  | Some x => ParseDurationOrDefault (BdSubprocessTimeout x) DefaultBdSubprocessTimeout
  | None => DefaultBdSubprocessTimeout
  end.

Definition GUPPViolationTimeoutD (r : option SessionThresholds) : Duration :=
  match r with
  | Some x => ParseDurationOrDefault (GUPPViolationTimeout x) DefaultGUPPViolationTimeout
  | None => DefaultGUPPViolationTimeout
  end.

Definition HungSessionThresholdD (r : option SessionThresholds) : Duration :=
  match r with
  | Some x => ParseDurationOrDefault (HungSessionThreshold x) DefaultHungSessionThreshold
  | None => DefaultHungSessionThreshold
  end.

Definition StartupNudgeVerifyDelayD (r : option SessionThresholds) : Duration :=
  match r with
  | Some x =>
      ParseDurationOrDefault (StartupNudgeVerifyDelay x)
        DefaultStartupNudgeVerifyDelay
  | None => DefaultStartupNudgeVerifyDelay
  end.

Definition StartupNudgeMaxRetriesV (r : option SessionThresholds) : Z :=
  match r with
  | Some x =>
      match StartupNudgeMaxRetries x with
      | Some v => v
      | None => DefaultStartupNudgeMaxRetries
      end
  | None => DefaultStartupNudgeMaxRetries
  end.

(** [GetNudgeConfig] returns the nudge thresholds, never nil. *)
Definition GetNudgeConfig (c : option OperationalConfig) : option NudgeThresholds :=
  match c with
  | Some c' =>
      match Nudge c' with
      | Some x => Some x
      | None => Some emptyNudgeThresholds
      end
  | None => Some emptyNudgeThresholds
  end.

Definition ReadyTimeoutD (r : option NudgeThresholds) : Duration :=
  match r with
  | Some x => ParseDurationOrDefault (ReadyTimeout x) DefaultNudgeReadyTimeout
  | None => DefaultNudgeReadyTimeout
  end.

Definition RetryIntervalD (r : option NudgeThresholds) : Duration :=
  match r with
  | Some x => ParseDurationOrDefault (RetryInterval x) DefaultNudgeRetryInterval
  | None => DefaultNudgeRetryInterval
  end.

Definition LockTimeoutD (r : option NudgeThresholds) : Duration :=
  match r with
  | Some x => ParseDurationOrDefault (LockTimeout x) DefaultNudgeLockTimeout
  | None => DefaultNudgeLockTimeout
  end.

Definition NormalTTLD (r : option NudgeThresholds) : Duration :=
  match r with
  | Some x => ParseDurationOrDefault (NormalTTL x) DefaultNudgeNormalTTL
  | None => DefaultNudgeNormalTTL
  end.

Definition UrgentTTLD (r : option NudgeThresholds) : Duration :=
  match r with
  | Some x => ParseDurationOrDefault (UrgentTTL x) DefaultNudgeUrgentTTL
  | None => DefaultNudgeUrgentTTL
  end.

Definition MaxQueueDepthV (r : option NudgeThresholds) : Z :=
  match r with
  | Some x =>
      match MaxQueueDepth x with
      | Some v => v
      | None => DefaultNudgeMaxQueueDepth
      end
  | None => DefaultNudgeMaxQueueDepth
  end.

Definition StaleClaimThresholdD (r : option NudgeThresholds) : Duration :=
  match r with
  | Some x => ParseDurationOrDefault (StaleClaimThreshold x) DefaultNudgeStaleClaimTimeout
  | None => DefaultNudgeStaleClaimTimeout
  end.

(** [GetDaemonConfig] returns the daemon thresholds, never nil. *)
Definition GetDaemonConfig (c : option OperationalConfig) : option DaemonThresholds :=
  match c with
  | Some c' =>
      match Daemon c' with
      | Some x => Some x
      | None => Some emptyDaemonThresholds
      end
  | None => Some emptyDaemonThresholds
  end.

Definition MassDeathWindowD (r : option DaemonThresholds) : Duration :=
  match r with
  | Some x => ParseDurationOrDefault (MassDeathWindow x) DefaultMassDeathWindow
  | None => DefaultMassDeathWindow
  end.

Definition MassDeathThresholdV (r : option DaemonThresholds) : Z :=
  match r with
  | Some x =>
      match MassDeathThreshold x with
      | Some v => v
      | None => DefaultMassDeathThreshold
      end
  | None => DefaultMassDeathThreshold
  end.

Definition DogIdleSessionTimeoutD (r : option DaemonThresholds) : Duration :=
  match r with
  | Some x =>
      ParseDurationOrDefault (DogIdleSessionTimeout x)
        DefaultDogIdleSessionTimeout
  | None => DefaultDogIdleSessionTimeout
  end.

Definition DogIdleRemoveTimeoutD (r : option DaemonThresholds) : Duration :=
  match r with
  | Some x => ParseDurationOrDefault (DogIdleRemoveTimeout x) DefaultDogIdleRemoveTimeout
  | None => DefaultDogIdleRemoveTimeout
  end.

Definition StaleWorkingTimeoutD (r : option DaemonThresholds) : Duration :=
  match r with
  | Some x => ParseDurationOrDefault (StaleWorkingTimeout x) DefaultStaleWorkingTimeout
  | None => DefaultStaleWorkingTimeout
  end.

Definition MaxDogPoolSizeV (r : option DaemonThresholds) : Z :=
  match r with
  | Some x =>
      match MaxDogPoolSize x with
      | Some v => v
      | None => DefaultMaxDogPoolSize
      end
  | None => DefaultMaxDogPoolSize
  end.

Definition MaxLifecycleMessageAgeD (r : option DaemonThresholds) : Duration :=
  match r with
  | Some x =>
      ParseDurationOrDefault (MaxLifecycleMessageAge x)
        DefaultMaxLifecycleMessageAge
  | None => DefaultMaxLifecycleMessageAge
  end.

Definition SyncFailureEscalationThresholdV (r : option DaemonThresholds) : Z :=
  match r with
  | Some x =>
      match SyncFailureEscalationThreshold x with
      | Some v => v
      | None => DefaultSyncFailureEscalationThreshold
      end
  | None => DefaultSyncFailureEscalationThreshold
  end.

Definition DoctorMolCooldownD (r : option DaemonThresholds) : Duration :=
  match r with
  | Some x => ParseDurationOrDefault (DoctorMolCooldown x) DefaultDoctorMolCooldown
  | None => DefaultDoctorMolCooldown
  end.

Definition RecoveryHeartbeatIntervalD (r : option DaemonThresholds) : Duration :=
  match r with
  | Some x =>
      ParseDurationOrDefault (RecoveryHeartbeatInterval x)
        DefaultRecoveryHeartbeatInterval
  | None => DefaultRecoveryHeartbeatInterval
  end.

Definition BootSpawnCooldownD (r : option DaemonThresholds) : Duration :=
  match r with
  | Some x => ParseDurationOrDefault (BootSpawnCooldown x) DefaultBootSpawnCooldown
  | None => DefaultBootSpawnCooldown
  end.

Definition DeaconGracePeriodD (r : option DaemonThresholds) : Duration :=
  match r with
  | Some x => ParseDurationOrDefault (DeaconGracePeriod x) DefaultDeaconGracePeriod
  | None => DefaultDeaconGracePeriod
  end.

(** [GetDeaconConfig] returns the deacon thresholds, never nil. *)
Definition GetDeaconConfig (c : option OperationalConfig) : option DeaconThresholds :=
  match c with
  | Some c' =>
      match Deacon c' with
      | Some x => Some x
      | None => Some emptyDeaconThresholds
      end
  | None => Some emptyDeaconThresholds
  end.

Definition PingTimeoutD (r : option DeaconThresholds) : Duration :=
  match r with
  | Some x => ParseDurationOrDefault (PingTimeout x) DefaultDeaconPingTimeout
  | None => DefaultDeaconPingTimeout
  end.

Definition ConsecutiveFailuresV (r : option DeaconThresholds) : Z :=
  match r with
  | Some x =>
      match ConsecutiveFailures x with
      | Some v => v
      | None => DefaultDeaconConsecutiveFailures
      end
  | None => DefaultDeaconConsecutiveFailures
  end.

Definition CooldownD (r : option DeaconThresholds) : Duration :=
  match r with
  | Some x => ParseDurationOrDefault (Cooldown x) DefaultDeaconCooldown
  | None => DefaultDeaconCooldown
  end.

Definition Deacon_HeartbeatStaleThresholdD (r : option DeaconThresholds) : Duration :=
  match r with
  | Some x =>
      ParseDurationOrDefault (Deacon_HeartbeatStaleThreshold x)
        DefaultDeaconHeartbeatStaleThreshold
  | None => DefaultDeaconHeartbeatStaleThreshold
  end.

Definition HeartbeatVeryStaleThresholdD (r : option DeaconThresholds) : Duration :=
  match r with
  | Some x =>
      ParseDurationOrDefault (HeartbeatVeryStaleThreshold x)
        DefaultDeaconHeartbeatVeryStale
  | None => DefaultDeaconHeartbeatVeryStale
  end.

Definition MaxRedispatchesV (r : option DeaconThresholds) : Z :=
  match r with
  | Some x =>
      match MaxRedispatches x with
      | Some v => v
      | None => DefaultMaxRedispatches
      end
  | None => DefaultMaxRedispatches
  end.

Definition RedispatchCooldownD (r : option DeaconThresholds) : Duration :=
  match r with
  | Some x => ParseDurationOrDefault (RedispatchCooldown x) DefaultRedispatchCooldown
  | None => DefaultRedispatchCooldown
  end.

Definition MaxFeedsPerCycleV (r : option DeaconThresholds) : Z :=
  match r with
  | Some x =>
      match MaxFeedsPerCycle x with
      | Some v => v
      | None => DefaultMaxFeedsPerCycle
      end
  | None => DefaultMaxFeedsPerCycle
  end.

Definition FeedCooldownD (r : option DeaconThresholds) : Duration :=
  match r with
  | Some x => ParseDurationOrDefault (FeedCooldown x) DefaultFeedCooldown
  | None => DefaultFeedCooldown
  end.

(** [GetPolecatConfig] returns the polecat thresholds, never nil. *)
Definition GetPolecatConfig (c : option OperationalConfig) : option PolecatThresholds :=
  match c with
  | Some c' =>
      match Polecat c' with
      | Some x => Some x
      | None => Some emptyPolecatThresholds
      end
  | None => Some emptyPolecatThresholds
  end.

Definition Polecat_HeartbeatStaleThresholdD (r : option PolecatThresholds) : Duration :=
  match r with
  | Some x =>
      ParseDurationOrDefault (Polecat_HeartbeatStaleThreshold x)
        DefaultPolecatHeartbeatStale
  | None => DefaultPolecatHeartbeatStale
  end.

Definition DoltMaxRetriesV (r : option PolecatThresholds) : Z :=
  match r with
  | Some x =>
      match DoltMaxRetries x with
      | Some v => v
      | None => DefaultPolecatDoltMaxRetries
      end
  | None => DefaultPolecatDoltMaxRetries
  end.

Definition DoltBaseBackoffD (r : option PolecatThresholds) : Duration :=
  match r with
  | Some x => ParseDurationOrDefault (DoltBaseBackoff x) DefaultPolecatDoltBaseBackoff
  | None => DefaultPolecatDoltBaseBackoff
  end.

Definition DoltBackoffMaxD (r : option PolecatThresholds) : Duration :=
  match r with
  | Some x => ParseDurationOrDefault (DoltBackoffMax x) DefaultPolecatDoltBackoffMax
  | None => DefaultPolecatDoltBackoffMax
  end.

Definition PendingMaxAgeD (r : option PolecatThresholds) : Duration :=
  match r with
  | Some x => ParseDurationOrDefault (PendingMaxAge x) DefaultPolecatPendingMaxAge
  | None => DefaultPolecatPendingMaxAge
  end.

Definition NamepoolSizeV (r : option PolecatThresholds) : Z :=
  match r with
  | Some x =>
      match NamepoolSize x with
      | Some v => v
      | None => DefaultPolecatNamepoolSize
      end
  | None => DefaultPolecatNamepoolSize
  end.

(** [GetDoltConfig] returns the dolt thresholds, never nil. *)
Definition GetDoltConfig (c : option OperationalConfig) : option DoltThresholds :=
  match c with
  | Some c' =>
      match Dolt c' with
      | Some x => Some x
      | None => Some emptyDoltThresholds
      end
  | None => Some emptyDoltThresholds
  end.

Definition HealthCheckIntervalD (r : option DoltThresholds) : Duration :=
  match r with
  | Some x =>
      ParseDurationOrDefault (HealthCheckInterval x)
        DefaultDoltHealthCheckInterval
  | None => DefaultDoltHealthCheckInterval
  end.

Definition CmdTimeoutD (r : option DoltThresholds) : Duration :=
  match r with
  | Some x => ParseDurationOrDefault (CmdTimeout x) DefaultDoltCmdTimeout
  | None => DefaultDoltCmdTimeout
  end.

Definition MaxConnectionsV (r : option DoltThresholds) : Z :=
  match r with
  | Some x =>
      match MaxConnections x with
      | Some v => v
      | None => DefaultDoltMaxConnections
      end
  | None => DefaultDoltMaxConnections
  end.

Definition SlowQueryThresholdD (r : option DoltThresholds) : Duration :=
  match r with
  | Some x => ParseDurationOrDefault (SlowQueryThreshold x) DefaultDoltSlowQueryThreshold
  | None => DefaultDoltSlowQueryThreshold
  end.

(** [GetMailConfig] returns the mail thresholds, never nil. *)
Definition GetMailConfig (c : option OperationalConfig) : option MailThresholds :=
  match c with
  | Some c' =>
      match Mail c' with
      | Some x => Some x
      | None => Some emptyMailThresholds
      end
  | None => Some emptyMailThresholds
  end.

Definition IdleNotifyTimeoutD (r : option MailThresholds) : Duration :=
  match r with
  | Some x => ParseDurationOrDefault (IdleNotifyTimeout x) DefaultMailIdleNotifyTimeout
  | None => DefaultMailIdleNotifyTimeout
  end.

Definition BdReadTimeoutD (r : option MailThresholds) : Duration :=
  match r with
  | Some x => ParseDurationOrDefault (BdReadTimeout x) DefaultMailBdReadTimeout
  | None => DefaultMailBdReadTimeout
  end.

Definition BdWriteTimeoutD (r : option MailThresholds) : Duration :=
  match r with
  | Some x => ParseDurationOrDefault (BdWriteTimeout x) DefaultMailBdWriteTimeout
  | None => DefaultMailBdWriteTimeout
  end.

Definition MaxConcurrentAckOpsV (r : option MailThresholds) : Z :=
  match r with
  | Some x =>
      match MaxConcurrentAckOps x with
      | Some v => v
      | None => DefaultMailMaxConcurrentAcks
      end
  | None => DefaultMailMaxConcurrentAcks
  end.

(** [GetWebConfig] returns the web thresholds, never nil. *)
Definition GetWebConfig (c : option OperationalConfig) : option WebThresholds :=
  match c with
  | Some c' =>
      match Web c' with
      | Some x => Some x
      | None => Some emptyWebThresholds
      end
  | None => Some emptyWebThresholds
  end.

Definition MaxConcurrentCommandsV (r : option WebThresholds) : Z :=
  match r with
  | Some x =>
      match MaxConcurrentCommands x with
      | Some v => v
      | None => DefaultWebMaxConcurrentCmds
      end
  | None => DefaultWebMaxConcurrentCmds
  end.

Definition MaxSubjectLenV (r : option WebThresholds) : Z :=
  match r with
  | Some x =>
      match MaxSubjectLen x with
      | Some v => v
      | None => DefaultWebMaxSubjectLen
      end
  | None => DefaultWebMaxSubjectLen
  end.

Definition MaxBodyLenV (r : option WebThresholds) : Z :=
  match r with
  | Some x =>
      match MaxBodyLen x with
      | Some v => v
      | None => DefaultWebMaxBodyLen
      end
  | None => DefaultWebMaxBodyLen
  end.

(** *** What the nil-safety of the accessors says *)

(** The receiver is nil, or the field the accessor reads has its zero
    value. *)
Definition Unset {T F : Type} (field : T -> F) (zero : F) (recv : option T) : Prop :=
  match recv with
  | None => True
  | Some x => field x = zero
  end.

Definition SessionDefaults : Prop :=
  (forall r, Unset ClaudeStartTimeout EmptyString r ->
     ClaudeStartTimeoutD r = DefaultClaudeStartTimeout)
  /\ (forall r, Unset ShellReadyTimeout EmptyString r ->
        ShellReadyTimeoutD r = DefaultShellReadyTimeout)
  /\ (forall r, Unset GracefulShutdownTimeout EmptyString r ->
        GracefulShutdownTimeoutD r = DefaultGracefulShutdownTimeout)
  /\ (forall r, Unset BdCommandTimeout EmptyString r ->
        BdCommandTimeoutD r = DefaultBdCommandTimeout)
  /\ (forall r, Unset BdSubprocessTimeout EmptyString r ->
        BdSubprocessTimeoutD r = DefaultBdSubprocessTimeout)
  /\ (forall r, Unset GUPPViolationTimeout EmptyString r ->
        GUPPViolationTimeoutD r = DefaultGUPPViolationTimeout)
  /\ (forall r, Unset HungSessionThreshold EmptyString r ->
        HungSessionThresholdD r = DefaultHungSessionThreshold)
  /\ (forall r, Unset StartupNudgeVerifyDelay EmptyString r ->
        StartupNudgeVerifyDelayD r = DefaultStartupNudgeVerifyDelay)
  /\ (forall r, Unset StartupNudgeMaxRetries None r ->
        StartupNudgeMaxRetriesV r = DefaultStartupNudgeMaxRetries).

Definition NudgeDefaults : Prop :=
  (forall r, Unset ReadyTimeout EmptyString r ->
     ReadyTimeoutD r = DefaultNudgeReadyTimeout)
  /\ (forall r, Unset RetryInterval EmptyString r ->
        RetryIntervalD r = DefaultNudgeRetryInterval)
  /\ (forall r, Unset LockTimeout EmptyString r ->
        LockTimeoutD r = DefaultNudgeLockTimeout)
  /\ (forall r, Unset NormalTTL EmptyString r -> NormalTTLD r = DefaultNudgeNormalTTL)
  /\ (forall r, Unset UrgentTTL EmptyString r -> UrgentTTLD r = DefaultNudgeUrgentTTL)
  /\ (forall r, Unset MaxQueueDepth None r ->
        MaxQueueDepthV r = DefaultNudgeMaxQueueDepth)
  /\ (forall r, Unset StaleClaimThreshold EmptyString r ->
        StaleClaimThresholdD r = DefaultNudgeStaleClaimTimeout).

Definition DaemonDefaults : Prop :=
  (forall r, Unset MassDeathWindow EmptyString r ->
     MassDeathWindowD r = DefaultMassDeathWindow)
  /\ (forall r, Unset MassDeathThreshold None r ->
        MassDeathThresholdV r = DefaultMassDeathThreshold)
  /\ (forall r, Unset DogIdleSessionTimeout EmptyString r ->
        DogIdleSessionTimeoutD r = DefaultDogIdleSessionTimeout)
  /\ (forall r, Unset DogIdleRemoveTimeout EmptyString r ->
        DogIdleRemoveTimeoutD r = DefaultDogIdleRemoveTimeout)
  /\ (forall r, Unset StaleWorkingTimeout EmptyString r ->
        StaleWorkingTimeoutD r = DefaultStaleWorkingTimeout)
  /\ (forall r, Unset MaxDogPoolSize None r -> MaxDogPoolSizeV r = DefaultMaxDogPoolSize)
  /\ (forall r, Unset MaxLifecycleMessageAge EmptyString r ->
        MaxLifecycleMessageAgeD r = DefaultMaxLifecycleMessageAge)
  /\ (forall r, Unset SyncFailureEscalationThreshold None r ->
        SyncFailureEscalationThresholdV r = DefaultSyncFailureEscalationThreshold)
  /\ (forall r, Unset DoctorMolCooldown EmptyString r ->
        DoctorMolCooldownD r = DefaultDoctorMolCooldown)
  /\ (forall r, Unset RecoveryHeartbeatInterval EmptyString r ->
        RecoveryHeartbeatIntervalD r = DefaultRecoveryHeartbeatInterval)
  /\ (forall r, Unset BootSpawnCooldown EmptyString r ->
        BootSpawnCooldownD r = DefaultBootSpawnCooldown)
  /\ (forall r, Unset DeaconGracePeriod EmptyString r ->
        DeaconGracePeriodD r = DefaultDeaconGracePeriod).

Definition DeaconDefaults : Prop :=
  (forall r, Unset PingTimeout EmptyString r -> PingTimeoutD r = DefaultDeaconPingTimeout)
  /\ (forall r, Unset ConsecutiveFailures None r ->
        ConsecutiveFailuresV r = DefaultDeaconConsecutiveFailures)
  /\ (forall r, Unset Cooldown EmptyString r -> CooldownD r = DefaultDeaconCooldown)
  /\ (forall r, Unset Deacon_HeartbeatStaleThreshold EmptyString r ->
        Deacon_HeartbeatStaleThresholdD r = DefaultDeaconHeartbeatStaleThreshold)
  /\ (forall r, Unset HeartbeatVeryStaleThreshold EmptyString r ->
        HeartbeatVeryStaleThresholdD r = DefaultDeaconHeartbeatVeryStale)
  /\ (forall r, Unset MaxRedispatches None r ->
        MaxRedispatchesV r = DefaultMaxRedispatches)
  /\ (forall r, Unset RedispatchCooldown EmptyString r ->
        RedispatchCooldownD r = DefaultRedispatchCooldown)
  /\ (forall r, Unset MaxFeedsPerCycle None r ->
        MaxFeedsPerCycleV r = DefaultMaxFeedsPerCycle)
  /\ (forall r, Unset FeedCooldown EmptyString r ->
        FeedCooldownD r = DefaultFeedCooldown).

Definition PolecatDefaults : Prop :=
  (forall r, Unset Polecat_HeartbeatStaleThreshold EmptyString r ->
     Polecat_HeartbeatStaleThresholdD r = DefaultPolecatHeartbeatStale)
  /\ (forall r, Unset DoltMaxRetries None r ->
        DoltMaxRetriesV r = DefaultPolecatDoltMaxRetries)
  /\ (forall r, Unset DoltBaseBackoff EmptyString r ->
        DoltBaseBackoffD r = DefaultPolecatDoltBaseBackoff)
  /\ (forall r, Unset DoltBackoffMax EmptyString r ->
        DoltBackoffMaxD r = DefaultPolecatDoltBackoffMax)
  /\ (forall r, Unset PendingMaxAge EmptyString r ->
        PendingMaxAgeD r = DefaultPolecatPendingMaxAge)
  /\ (forall r, Unset NamepoolSize None r ->
        NamepoolSizeV r = DefaultPolecatNamepoolSize).

Definition DoltDefaults : Prop :=
  (forall r, Unset HealthCheckInterval EmptyString r ->
     HealthCheckIntervalD r = DefaultDoltHealthCheckInterval)
  /\ (forall r, Unset CmdTimeout EmptyString r -> CmdTimeoutD r = DefaultDoltCmdTimeout)
  /\ (forall r, Unset MaxConnections None r ->
        MaxConnectionsV r = DefaultDoltMaxConnections)
  /\ (forall r, Unset SlowQueryThreshold EmptyString r ->
        SlowQueryThresholdD r = DefaultDoltSlowQueryThreshold).

Definition MailDefaults : Prop :=
  (forall r, Unset IdleNotifyTimeout EmptyString r ->
     IdleNotifyTimeoutD r = DefaultMailIdleNotifyTimeout)
  /\ (forall r, Unset BdReadTimeout EmptyString r ->
        BdReadTimeoutD r = DefaultMailBdReadTimeout)
  /\ (forall r, Unset BdWriteTimeout EmptyString r ->
        BdWriteTimeoutD r = DefaultMailBdWriteTimeout)
  /\ (forall r, Unset MaxConcurrentAckOps None r ->
        MaxConcurrentAckOpsV r = DefaultMailMaxConcurrentAcks).

Definition WebDefaults : Prop :=
  (forall r, Unset MaxConcurrentCommands None r ->
     MaxConcurrentCommandsV r = DefaultWebMaxConcurrentCmds)
  /\ (forall r, Unset MaxSubjectLen None r -> MaxSubjectLenV r = DefaultWebMaxSubjectLen)
  /\ (forall r, Unset MaxBodyLen None r -> MaxBodyLenV r = DefaultWebMaxBodyLen).

Definition GettersNeverNil : Prop :=
  forall c : option OperationalConfig,
    (exists x, GetSessionConfig c = Some x)
    /\ (exists x, GetNudgeConfig c = Some x)
    /\ (exists x, GetDaemonConfig c = Some x)
    /\ (exists x, GetDeaconConfig c = Some x)
    /\ (exists x, GetPolecatConfig c = Some x)
    /\ (exists x, GetDoltConfig c = Some x)
    /\ (exists x, GetMailConfig c = Some x)
    /\ (exists x, GetWebConfig c = Some x).

Definition GettersOfNil : Prop :=
    (forall c, Unset Session None c -> GetSessionConfig c = Some emptySessionThresholds)
    /\ (forall c, Unset Nudge None c -> GetNudgeConfig c = Some emptyNudgeThresholds)
    /\ (forall c, Unset Daemon None c -> GetDaemonConfig c = Some emptyDaemonThresholds)
    /\ (forall c, Unset Deacon None c -> GetDeaconConfig c = Some emptyDeaconThresholds)
    /\ (forall c, Unset Polecat None c -> GetPolecatConfig c = Some emptyPolecatThresholds)
    /\ (forall c, Unset Dolt None c -> GetDoltConfig c = Some emptyDoltThresholds)
    /\ (forall c, Unset Mail None c -> GetMailConfig c = Some emptyMailThresholds)
    /\ (forall c, Unset Web None c -> GetWebConfig c = Some emptyWebThresholds).

(** *** Proofs *)

(** The one fact about the helper that the accessors rely on: an empty
    string yields the fallback. *)
Hypothesis ParseDurationOrDefault_empty :
  forall fallback, ParseDurationOrDefault EmptyString fallback = fallback.

Ltac split_conj := repeat match goal with |- _ /\ _ => split end.

Ltac unset_receiver :=
  let r := fresh "r" in
  let x := fresh "x" in
  let H := fresh "H" in
  intros r H; destruct r as [x|]; simpl in H |- *;
  [ rewrite H; first [apply ParseDurationOrDefault_empty | reflexivity]
  | reflexivity ].

Lemma session_defaults : SessionDefaults.
Proof.
  unfold SessionDefaults, ClaudeStartTimeoutD, ShellReadyTimeoutD,
    GracefulShutdownTimeoutD, BdCommandTimeoutD, BdSubprocessTimeoutD,
    GUPPViolationTimeoutD, HungSessionThresholdD, StartupNudgeVerifyDelayD,
    StartupNudgeMaxRetriesV.
  split_conj; unset_receiver.
Qed.

Lemma nudge_defaults : NudgeDefaults.
Proof.
  unfold NudgeDefaults, ReadyTimeoutD, RetryIntervalD, LockTimeoutD,
    NormalTTLD, UrgentTTLD, MaxQueueDepthV, StaleClaimThresholdD.
  split_conj; unset_receiver.
Qed.

Lemma daemon_defaults : DaemonDefaults.
Proof.
  unfold DaemonDefaults, MassDeathWindowD, MassDeathThresholdV,
    DogIdleSessionTimeoutD, DogIdleRemoveTimeoutD, StaleWorkingTimeoutD,
    MaxDogPoolSizeV, MaxLifecycleMessageAgeD, SyncFailureEscalationThresholdV,
    DoctorMolCooldownD, RecoveryHeartbeatIntervalD, BootSpawnCooldownD,
    DeaconGracePeriodD.
  split_conj; unset_receiver.
Qed.

Lemma deacon_defaults : DeaconDefaults.
Proof.
  unfold DeaconDefaults, PingTimeoutD, ConsecutiveFailuresV, CooldownD,
    Deacon_HeartbeatStaleThresholdD, HeartbeatVeryStaleThresholdD,
    MaxRedispatchesV, RedispatchCooldownD, MaxFeedsPerCycleV, FeedCooldownD.
  split_conj; unset_receiver.
Qed.

Lemma polecat_defaults : PolecatDefaults.
Proof.
  unfold PolecatDefaults, Polecat_HeartbeatStaleThresholdD, DoltMaxRetriesV,
    DoltBaseBackoffD, DoltBackoffMaxD, PendingMaxAgeD, NamepoolSizeV.
  split_conj; unset_receiver.
Qed.

Lemma dolt_defaults : DoltDefaults.
Proof.
  unfold DoltDefaults, HealthCheckIntervalD, CmdTimeoutD, MaxConnectionsV,
    SlowQueryThresholdD.
  split_conj; unset_receiver.
Qed.

Lemma mail_defaults : MailDefaults.
Proof.
  unfold MailDefaults, IdleNotifyTimeoutD, BdReadTimeoutD, BdWriteTimeoutD,
    MaxConcurrentAckOpsV.
  split_conj; unset_receiver.
Qed.

Lemma web_defaults : WebDefaults.
Proof.
  unfold WebDefaults, MaxConcurrentCommandsV, MaxSubjectLenV, MaxBodyLenV.
  split_conj; unset_receiver.
Qed.

Lemma getters_never_nil : GettersNeverNil.
Proof.
  intros c. unfold GetSessionConfig, GetNudgeConfig, GetDaemonConfig,
    GetDeaconConfig, GetPolecatConfig, GetDoltConfig, GetMailConfig,
    GetWebConfig.
  split_conj; destruct c as [c'|]; simpl; eauto;
    match goal with
    | |- context [match ?f c' with _ => _ end] => destruct (f c')
    end; eauto.
Qed.

Lemma getters_of_nil : GettersOfNil.
Proof.
  unfold GettersOfNil, GetSessionConfig, GetNudgeConfig, GetDaemonConfig,
    GetDeaconConfig, GetPolecatConfig, GetDoltConfig, GetMailConfig,
    GetWebConfig.
  split_conj;
    (intros [c'|] H; simpl in H |- *; [rewrite H|]; reflexivity).
Qed.

Lemma LoadOperationalConfig_some (townRoot : string) :
  exists op, LoadOperationalConfig townRoot = Some op.
Proof.
  unfold LoadOperationalConfig.
  destruct (LoadOrCreateTownSettings _) as [[ts'|] [|]]; eauto.
  destruct (Operational ts'); eauto.
Qed.

Lemma LoadOperationalConfig_failure (townRoot : string) :
  let loaded := LoadOrCreateTownSettings
                  (filepathJoin [townRoot; "settings"; "config.json"]) in
  snd loaded = true \/ Unset Operational None (fst loaded) ->
  LoadOperationalConfig townRoot = Some emptyOperationalConfig.
Proof.
  unfold LoadOperationalConfig.
  destruct (LoadOrCreateTownSettings _) as [[ts'|] [|]]; simpl;
    intros [H|H]; try discriminate; try reflexivity.
  rewrite H. reflexivity.
Qed.

(** C8.  The operational accessors are total on nil.  [LoadOperationalConfig]
    always returns a config, the empty one when loading fails or the settings
    hold no operational section; every [GetXConfig] returns a thresholds
    struct, the empty one for a nil receiver or a nil sub-struct; and every
    threshold accessor returns its compiled-in default when its receiver is
    nil or the field it reads is unset.  (The duration accessors hand an
    unset field to [ParseDurationOrDefault], which gives the fallback back
    for the empty string.) *)
Theorem C8_accessors_total_on_nil :
  (forall townRoot, exists op, LoadOperationalConfig townRoot = Some op)
  /\ (forall townRoot,
        snd (LoadOrCreateTownSettings
               (filepathJoin [townRoot; "settings"; "config.json"])) = true
        \/ Unset Operational None
             (fst (LoadOrCreateTownSettings
                     (filepathJoin [townRoot; "settings"; "config.json"]))) ->
        LoadOperationalConfig townRoot = Some emptyOperationalConfig)
  /\ GettersNeverNil /\ GettersOfNil
  /\ SessionDefaults /\ NudgeDefaults /\ DaemonDefaults /\ DeaconDefaults
  /\ PolecatDefaults /\ DoltDefaults /\ MailDefaults /\ WebDefaults.
Proof.
  split; [exact LoadOperationalConfig_some|].
  split; [exact LoadOperationalConfig_failure|].
  split; [exact getters_never_nil|].
  split; [exact getters_of_nil|].
  split_conj;
    first [ apply session_defaults | apply nudge_defaults
          | apply daemon_defaults | apply deacon_defaults
          | apply polecat_defaults | apply dolt_defaults
          | apply mail_defaults | apply web_defaults ].
Qed.

(** *** Reading thresholds through the getters *)

(** Every threshold, read through its getter from one operational config,
    has its compiled-in default. *)
Definition AllDefaultsThrough (op : option OperationalConfig) : Prop :=
  ClaudeStartTimeoutD (GetSessionConfig op) = DefaultClaudeStartTimeout
  /\ ShellReadyTimeoutD (GetSessionConfig op) = DefaultShellReadyTimeout
  /\ GracefulShutdownTimeoutD (GetSessionConfig op) = DefaultGracefulShutdownTimeout
  /\ BdCommandTimeoutD (GetSessionConfig op) = DefaultBdCommandTimeout
  /\ BdSubprocessTimeoutD (GetSessionConfig op) = DefaultBdSubprocessTimeout
  /\ GUPPViolationTimeoutD (GetSessionConfig op) = DefaultGUPPViolationTimeout
  /\ HungSessionThresholdD (GetSessionConfig op) = DefaultHungSessionThreshold
  /\ StartupNudgeVerifyDelayD (GetSessionConfig op) = DefaultStartupNudgeVerifyDelay
  /\ StartupNudgeMaxRetriesV (GetSessionConfig op) = DefaultStartupNudgeMaxRetries
  /\ ReadyTimeoutD (GetNudgeConfig op) = DefaultNudgeReadyTimeout
  /\ RetryIntervalD (GetNudgeConfig op) = DefaultNudgeRetryInterval
  /\ LockTimeoutD (GetNudgeConfig op) = DefaultNudgeLockTimeout
  /\ NormalTTLD (GetNudgeConfig op) = DefaultNudgeNormalTTL
  /\ UrgentTTLD (GetNudgeConfig op) = DefaultNudgeUrgentTTL
  /\ MaxQueueDepthV (GetNudgeConfig op) = DefaultNudgeMaxQueueDepth
  /\ StaleClaimThresholdD (GetNudgeConfig op) = DefaultNudgeStaleClaimTimeout
  /\ MassDeathWindowD (GetDaemonConfig op) = DefaultMassDeathWindow
  /\ MassDeathThresholdV (GetDaemonConfig op) = DefaultMassDeathThreshold
  /\ DogIdleSessionTimeoutD (GetDaemonConfig op) = DefaultDogIdleSessionTimeout
  /\ DogIdleRemoveTimeoutD (GetDaemonConfig op) = DefaultDogIdleRemoveTimeout
  /\ StaleWorkingTimeoutD (GetDaemonConfig op) = DefaultStaleWorkingTimeout
  /\ MaxDogPoolSizeV (GetDaemonConfig op) = DefaultMaxDogPoolSize
  /\ MaxLifecycleMessageAgeD (GetDaemonConfig op) = DefaultMaxLifecycleMessageAge
  /\ SyncFailureEscalationThresholdV (GetDaemonConfig op) = DefaultSyncFailureEscalationThreshold
  /\ DoctorMolCooldownD (GetDaemonConfig op) = DefaultDoctorMolCooldown
  /\ RecoveryHeartbeatIntervalD (GetDaemonConfig op) = DefaultRecoveryHeartbeatInterval
  /\ BootSpawnCooldownD (GetDaemonConfig op) = DefaultBootSpawnCooldown
  /\ DeaconGracePeriodD (GetDaemonConfig op) = DefaultDeaconGracePeriod
  /\ PingTimeoutD (GetDeaconConfig op) = DefaultDeaconPingTimeout
  /\ ConsecutiveFailuresV (GetDeaconConfig op) = DefaultDeaconConsecutiveFailures
  /\ CooldownD (GetDeaconConfig op) = DefaultDeaconCooldown
  /\ Deacon_HeartbeatStaleThresholdD (GetDeaconConfig op) = DefaultDeaconHeartbeatStaleThreshold
  /\ HeartbeatVeryStaleThresholdD (GetDeaconConfig op) = DefaultDeaconHeartbeatVeryStale
  /\ MaxRedispatchesV (GetDeaconConfig op) = DefaultMaxRedispatches
  /\ RedispatchCooldownD (GetDeaconConfig op) = DefaultRedispatchCooldown
  /\ MaxFeedsPerCycleV (GetDeaconConfig op) = DefaultMaxFeedsPerCycle
  /\ FeedCooldownD (GetDeaconConfig op) = DefaultFeedCooldown
  /\ Polecat_HeartbeatStaleThresholdD (GetPolecatConfig op) = DefaultPolecatHeartbeatStale
  /\ DoltMaxRetriesV (GetPolecatConfig op) = DefaultPolecatDoltMaxRetries
  /\ DoltBaseBackoffD (GetPolecatConfig op) = DefaultPolecatDoltBaseBackoff
  /\ DoltBackoffMaxD (GetPolecatConfig op) = DefaultPolecatDoltBackoffMax
  /\ PendingMaxAgeD (GetPolecatConfig op) = DefaultPolecatPendingMaxAge
  /\ NamepoolSizeV (GetPolecatConfig op) = DefaultPolecatNamepoolSize
  /\ HealthCheckIntervalD (GetDoltConfig op) = DefaultDoltHealthCheckInterval
  /\ CmdTimeoutD (GetDoltConfig op) = DefaultDoltCmdTimeout
  /\ MaxConnectionsV (GetDoltConfig op) = DefaultDoltMaxConnections
  /\ SlowQueryThresholdD (GetDoltConfig op) = DefaultDoltSlowQueryThreshold
  /\ IdleNotifyTimeoutD (GetMailConfig op) = DefaultMailIdleNotifyTimeout
  /\ BdReadTimeoutD (GetMailConfig op) = DefaultMailBdReadTimeout
  /\ BdWriteTimeoutD (GetMailConfig op) = DefaultMailBdWriteTimeout
  /\ MaxConcurrentAckOpsV (GetMailConfig op) = DefaultMailMaxConcurrentAcks
  /\ MaxConcurrentCommandsV (GetWebConfig op) = DefaultWebMaxConcurrentCmds
  /\ MaxSubjectLenV (GetWebConfig op) = DefaultWebMaxSubjectLen
  /\ MaxBodyLenV (GetWebConfig op) = DefaultWebMaxBodyLen.


Lemma defaults_through_empty : AllDefaultsThrough (Some emptyOperationalConfig).
Proof.
  unfold AllDefaultsThrough, GetSessionConfig, GetNudgeConfig,
    GetDaemonConfig, GetDeaconConfig, GetPolecatConfig, GetDoltConfig,
    GetMailConfig, GetWebConfig, ClaudeStartTimeoutD, ShellReadyTimeoutD,
    GracefulShutdownTimeoutD, BdCommandTimeoutD, BdSubprocessTimeoutD,
    GUPPViolationTimeoutD, HungSessionThresholdD, StartupNudgeVerifyDelayD,
    StartupNudgeMaxRetriesV, ReadyTimeoutD, RetryIntervalD, LockTimeoutD,
    NormalTTLD, UrgentTTLD, MaxQueueDepthV, StaleClaimThresholdD,
    MassDeathWindowD, MassDeathThresholdV, DogIdleSessionTimeoutD,
    DogIdleRemoveTimeoutD, StaleWorkingTimeoutD, MaxDogPoolSizeV,
    MaxLifecycleMessageAgeD, SyncFailureEscalationThresholdV,
    DoctorMolCooldownD, RecoveryHeartbeatIntervalD, BootSpawnCooldownD,
    DeaconGracePeriodD, PingTimeoutD, ConsecutiveFailuresV, CooldownD,
    Deacon_HeartbeatStaleThresholdD, HeartbeatVeryStaleThresholdD,
    MaxRedispatchesV, RedispatchCooldownD, MaxFeedsPerCycleV, FeedCooldownD,
    Polecat_HeartbeatStaleThresholdD, DoltMaxRetriesV, DoltBaseBackoffD,
    DoltBackoffMaxD, PendingMaxAgeD, NamepoolSizeV, HealthCheckIntervalD,
    CmdTimeoutD, MaxConnectionsV, SlowQueryThresholdD, IdleNotifyTimeoutD,
    BdReadTimeoutD, BdWriteTimeoutD, MaxConcurrentAckOpsV,
    MaxConcurrentCommandsV, MaxSubjectLenV, MaxBodyLenV.
  simpl. rewrite !ParseDurationOrDefault_empty. split_conj; reflexivity.
Qed.

Lemma defaults_through_nil : AllDefaultsThrough None.
Proof.
  unfold AllDefaultsThrough, GetSessionConfig, GetNudgeConfig,
    GetDaemonConfig, GetDeaconConfig, GetPolecatConfig, GetDoltConfig,
    GetMailConfig, GetWebConfig, ClaudeStartTimeoutD, ShellReadyTimeoutD,
    GracefulShutdownTimeoutD, BdCommandTimeoutD, BdSubprocessTimeoutD,
    GUPPViolationTimeoutD, HungSessionThresholdD, StartupNudgeVerifyDelayD,
    StartupNudgeMaxRetriesV, ReadyTimeoutD, RetryIntervalD, LockTimeoutD,
    NormalTTLD, UrgentTTLD, MaxQueueDepthV, StaleClaimThresholdD,
    MassDeathWindowD, MassDeathThresholdV, DogIdleSessionTimeoutD,
    DogIdleRemoveTimeoutD, StaleWorkingTimeoutD, MaxDogPoolSizeV,
    MaxLifecycleMessageAgeD, SyncFailureEscalationThresholdV,
    DoctorMolCooldownD, RecoveryHeartbeatIntervalD, BootSpawnCooldownD,
    DeaconGracePeriodD, PingTimeoutD, ConsecutiveFailuresV, CooldownD,
    Deacon_HeartbeatStaleThresholdD, HeartbeatVeryStaleThresholdD,
    MaxRedispatchesV, RedispatchCooldownD, MaxFeedsPerCycleV, FeedCooldownD,
    Polecat_HeartbeatStaleThresholdD, DoltMaxRetriesV, DoltBaseBackoffD,
    DoltBackoffMaxD, PendingMaxAgeD, NamepoolSizeV, HealthCheckIntervalD,
    CmdTimeoutD, MaxConnectionsV, SlowQueryThresholdD, IdleNotifyTimeoutD,
    BdReadTimeoutD, BdWriteTimeoutD, MaxConcurrentAckOpsV,
    MaxConcurrentCommandsV, MaxSubjectLenV, MaxBodyLenV.
  simpl. rewrite !ParseDurationOrDefault_empty. split_conj; reflexivity.
Qed.

(** X17.  When the settings cannot be loaded, or hold no operational
    section, every one of the 54 thresholds read through its getter from the
    loaded config is its compiled-in default; the same holds for a nil
    config. *)
Theorem X17_failed_load_gives_every_default (townRoot : string) :
  snd (LoadOrCreateTownSettings
         (filepathJoin [townRoot; "settings"; "config.json"])) = true
  \/ Unset Operational None
       (fst (LoadOrCreateTownSettings
               (filepathJoin [townRoot; "settings"; "config.json"]))) ->
  AllDefaultsThrough (LoadOperationalConfig townRoot)
  /\ AllDefaultsThrough None.
Proof.
  intros Hfail. rewrite (LoadOperationalConfig_failure townRoot Hfail).
  split; [exact defaults_through_empty | exact defaults_through_nil].
Qed.


End Accessors.

(** *** A concrete configuration source *)

(** One instance of the helper: the fallback for an empty or rejected
    string, the parsed duration otherwise. *)
Definition sampleParseDurationOrDefault (s : string) (fallback : Duration)
    : Duration :=
  if String.eqb s EmptyString then fallback
  else match Daemon.sampleParseDuration s with
       | Some d => d
       | None => fallback
       end.

Definition sampleJoin (parts : list string) : string := String.concat "/" parts.

(** A town root without settings: loading fails. *)
Definition nothingToLoad (path : string) : option TownSettings * bool :=
  (None, true).

(** The settings of [TestLoadOperationalConfig_WithConfig]. *)
Definition configuredTown (path : string) : option TownSettings * bool :=
  (Some (mkTownSettings (Some
     {| Session := Some {| ClaudeStartTimeout := EmptyString;
                           ShellReadyTimeout := EmptyString;
                           GracefulShutdownTimeout := EmptyString;
                           BdCommandTimeout := EmptyString;
                           BdSubprocessTimeout := EmptyString;
                           GUPPViolationTimeout := "45m";
                           HungSessionThreshold := EmptyString;
                           StartupNudgeVerifyDelay := EmptyString;
                           StartupNudgeMaxRetries := Some 7 |};
        Nudge := None;
        Daemon := Some {| MassDeathWindow := EmptyString;
                          MassDeathThreshold := None;
                          DogIdleSessionTimeout := "3h";
                          DogIdleRemoveTimeout := EmptyString;
                          StaleWorkingTimeout := EmptyString;
                          MaxDogPoolSize := None;
                          MaxLifecycleMessageAge := EmptyString;
                          SyncFailureEscalationThreshold := None;
                          DoctorMolCooldown := EmptyString;
                          RecoveryHeartbeatInterval := EmptyString;
                          BootSpawnCooldown := EmptyString;
                          DeaconGracePeriod := EmptyString |};
        Deacon := None; Polecat := None; Dolt := None;
        Mail := None; Web := None |})), false).

Lemma C8_accessors_total_on_nil_witness :
  LoadOperationalConfig sampleJoin nothingToLoad "/nonexistent/town/root"
    = Some emptyOperationalConfig
  /\ GetSessionConfig None = Some emptySessionThresholds
  /\ GUPPViolationTimeoutD sampleParseDurationOrDefault
       (GetSessionConfig
          (LoadOperationalConfig sampleJoin nothingToLoad "/nonexistent/town/root"))
     = DefaultGUPPViolationTimeout
  /\ StartupNudgeMaxRetriesV None = DefaultStartupNudgeMaxRetries.
Proof.
  destruct (C8_accessors_total_on_nil sampleParseDurationOrDefault sampleJoin
              nothingToLoad (fun fallback => eq_refl))
    as (_ & Hload & _ & Hnil & Hsession & _).
  destruct Hnil as (HgetSession & _).
  destruct Hsession as (_ & _ & _ & _ & _ & Hgupp & _ & _ & Hretries).
  split; [apply Hload; left; reflexivity|].
  split; [apply HgetSession; exact I|].
  split; [apply Hgupp; reflexivity|].
  apply Hretries. exact I.
Defined.

(** [TestLoadOperationalConfig_WithConfig]: configured values are used, the
    other thresholds keep their defaults. *)
Example load_with_config :
  let op := LoadOperationalConfig sampleJoin configuredTown "/town" in
  GUPPViolationTimeoutD sampleParseDurationOrDefault (GetSessionConfig op)
    = 45 * Minute
  /\ StartupNudgeMaxRetriesV (GetSessionConfig op) = 7
  /\ DogIdleSessionTimeoutD sampleParseDurationOrDefault (GetDaemonConfig op)
     = 3 * Hour
  /\ MaxQueueDepthV (GetNudgeConfig op) = DefaultNudgeMaxQueueDepth
  /\ MassDeathThresholdV (GetDaemonConfig op) = DefaultMassDeathThreshold.
Proof. repeat split; vm_compute; reflexivity. Qed.

(** [TestSessionThresholds_InvalidDuration]. *)
Example invalid_duration_falls_back :
  sampleParseDurationOrDefault "not-a-duration" DefaultClaudeStartTimeout
  = DefaultClaudeStartTimeout.
Proof. vm_compute. reflexivity. Qed.


Lemma X17_failed_load_gives_every_default_witness :
  AllDefaultsThrough sampleParseDurationOrDefault
    (LoadOperationalConfig sampleJoin nothingToLoad "/nonexistent/town/root")
  /\ AllDefaultsThrough sampleParseDurationOrDefault None.
Proof.
  apply (X17_failed_load_gives_every_default sampleParseDurationOrDefault
           sampleJoin nothingToLoad (fun fallback => eq_refl)
           "/nonexistent/town/root").
  left. reflexivity.
Defined.


End Config.

(** ** package feed: the plain-text event printer *)

Module Feed.
Import GoTime.

(** [Event], with the four fields the printer reads ([Time], [Type], [Actor]
    and [Message] in the source). *)
Record Event := mkEvent {
  evTime : Time;
  evType : string;
  evActor : string;
  evMessage : string
}.

(** The symbols of [typeSymbol], by name. *)
Inductive Symbol :=
| Owl            (* U+1F989 *)
| Lightning      (* U+26A1 *)
| Target         (* U+1F3AF *)
| Handshake      (* U+1F91D *)
| CheckMark      (* U+2713 *)
| Cross          (* U+2717 *)
| PlusSign       (* + *)
| CircledMinus   (* U+2298 *)
| Arrow.         (* U+2192 *)

(** [typeSymbol] (lines 88-117). *)
Definition typeSymbol (eventType : string) : Symbol :=
  if String.eqb eventType "patrol_started" then Owl
  else if String.eqb eventType "patrol_complete" then Owl
  else if String.eqb eventType "polecat_nudged" then Lightning
  else if String.eqb eventType "sling" then Target
  else if String.eqb eventType "handoff" then Handshake
  else if String.eqb eventType "done" then CheckMark
  else if String.eqb eventType "merged" then CheckMark
  else if String.eqb eventType "merge_failed" then Cross
  else if String.eqb eventType "create" then PlusSign
  else if String.eqb eventType "complete" then CheckMark
  else if String.eqb eventType "fail" then Cross
  else if String.eqb eventType "delete" then CircledMinus
  else Arrow.

(** What the printer writes to stdout, line by line. *)
Inductive Printed :=
| NoEventsLine
    (* "No events found in .events.jsonl" *)
| EventLine (ts : string) (symbol : Symbol) (actor message : string).
    (* "[%s] %s %-25s %s\n" *)

(** The two errors [PrintGtEvents] returns. *)
Inductive FeedError :=
| ErrNoEventsFile    (* "no events file found at %s: %w" *)
| ErrReadingEvents.  (* "reading events: %w" *)

(** *** The line scanner *)

(** [scanner.Buffer(make([]byte, 1024*1024), 1024*1024)]: the buffer, and
    with it the longest token, has 1 MiB. *)
Definition maxTokenSize : N := 1024 * 1024.

Definition lineFeed : ascii := ascii_of_nat 10.
Definition carriageReturn : ascii := ascii_of_nat 13.

(** [dropCR] of [bufio.ScanLines], on the reversed line: one trailing
    carriage return is dropped. *)
Definition dropCR (revLine : string) : string :=
  match revLine with
  | String c rest => if Ascii.eqb c carriageReturn then rest else revLine
  | EmptyString => revLine
  end.

(** [bufio.Scanner] with [bufio.ScanLines] over the bytes of the file.
    [revLine] holds the bytes of the current line, last first, and [n] is
    their number.  A line is a token when its line feed, or the end of the
    file, is found before the buffer is full; when [maxTokenSize] bytes of a
    line are in the buffer and none is a line feed, the scanner stops with
    [bufio.ErrTooLong] ([None] here).  An empty last line is no token. *)
Fixpoint scanLines (data : string) (revLine : string) (n : N)
    : option (list string) :=
  match data with
  | EmptyString =>
      Some (if (n =? 0)%N then [] else [String.rev (dropCR revLine)])
  | String c rest =>
      if Ascii.eqb c lineFeed
      then cons (String.rev (dropCR revLine)) <$> scanLines rest EmptyString 0%N
      else if (maxTokenSize <=? n + 1)%N then None
      else scanLines rest (String c revLine) (n + 1)%N
  end.

(** *** The printer *)

Section Printer.

(** [parseGtEventLine], defined in another file of the package: the event of
    a line, or nil. *)
Variable parseGtEventLine : string -> option Event.

(** [sort.Slice] under the comparison of lines 38-40,
    [events[i].Time.After(events[j].Time)]. *)
Variable sortSlice : list Event -> list Event.

(** [Time.Format("15:04:05")]. *)
Variable formatClock : Time -> string.

(** [filepath.Join] and [os.Open]: the bytes of the file at a path, when it
    can be opened. *)
Variable filepathJoin : list string -> string.
Variable osOpen : string -> option string.

(** Lines 57-65: the line of one event. *)
Definition printEvent (event : Event) : Printed :=
  let symbol := typeSymbol (evType event) in
  let ts := formatClock (evTime event) in
  let actor := if String.eqb (evActor event) EmptyString
               then "system" else evActor event in
  EventLine ts symbol actor (evMessage event).

(** Lines 42-50: the limit, then the reversal. *)
Definition applyLimit (limit : Z) (events : list Event) : list Event :=
  if (0 <? limit) && (limit <? Z.of_nat (length events))
  then firstn (Z.to_nat limit) events
  else events.

(** [PrintGtEvents] (lines 14-68): the lines printed and the error
    returned. *)
Definition PrintGtEvents (townRoot : string) (limit : Z)
    : list Printed * option FeedError :=
  let eventsPath := filepathJoin [townRoot; ".events.jsonl"] in
  match osOpen eventsPath with
  | None => ([], Some ErrNoEventsFile)
  | Some content =>
      match scanLines content EmptyString 0%N with
      | None => ([], Some ErrReadingEvents)
      | Some lines =>
          let events := omap parseGtEventLine lines in
          let events := sortSlice events in
          let events := applyLimit limit events in
          let events := rev events in
          if (length events =? 0)%nat then ([NoEventsLine], None)
          else (map printEvent events, None)
      end
  end.

(** The events of the file: what the parseable lines hold. *)
Definition parsedEvents (lines : list string) : list Event :=
  omap parseGtEventLine lines.

(** Most recent first, as [sort.Slice] leaves the slice. *)
Definition newestFirst (a b : Event) : Prop := evTime b <= evTime a.

(** Chronological order. *)
Definition oldestFirst (a b : Event) : Prop := evTime a <= evTime b.

(** *** Proofs *)

(** What [sort.Slice] guarantees for a comparison that is a strict weak
    order: the slice holds the same events, none of them after an event that
    stands before it. *)
Hypothesis sortSlice_Permutation :
  forall events, Permutation (sortSlice events) events.
Hypothesis sortSlice_sorted :
  forall events, StronglySorted newestFirst (sortSlice events).

Lemma applyLimit_firstn (limit : Z) (events : list Event) :
  0 < limit -> applyLimit limit events = firstn (Z.to_nat limit) events.
Proof.
  intros Hpos. unfold applyLimit.
  destruct (0 <? limit) eqn:E0; [|apply Z.ltb_ge in E0; lia]. simpl.
  destruct (limit <? Z.of_nat (length events)) eqn:E; [reflexivity|].
  apply Z.ltb_ge in E. symmetry. apply firstn_all2. lia.
Qed.

Lemma reversed_is_chronological (events : list Event) :
  StronglySorted newestFirst events -> StronglySorted oldestFirst (rev events).
Proof.
  induction 1 as [|x l Hsorted IH Hall]; simpl; [constructor|].
  apply StronglySorted_app_2.
  - intros x1 x2 Hx1 Hx2. apply list_elem_of_In in Hx1.
    apply list_elem_of_In in Hx2. destruct Hx2 as [<-|[]].
    apply in_rev in Hx1. rewrite Forall_forall in Hall.
    apply (Hall x1). apply list_elem_of_In. exact Hx1.
  - exact IH.
  - repeat constructor.
Qed.

Lemma parsedEvents_In (lines : list string) (e : Event) :
  In e (parsedEvents lines)
  <-> exists line, In line lines /\ parseGtEventLine line = Some e.
Proof.
  unfold parsedEvents. rewrite <- list_elem_of_In, list_elem_of_omap.
  split; intros (line & Hin & Hp); exists line;
    (split; [apply list_elem_of_In, Hin | exact Hp]).
Qed.

(** The events that are shown and the ones that are left out. *)
Lemma limit_keeps_most_recent (limit : Z) (events : list Event) :
  0 < limit ->
  let shown := rev (applyLimit limit (sortSlice events)) in
  let older := skipn (Z.to_nat limit) (sortSlice events) in
  Permutation events (shown ++ older)
  /\ length shown = Nat.min (Z.to_nat limit) (length events)
  /\ (forall e o, In e shown -> In o older -> evTime o <= evTime e)
  /\ StronglySorted oldestFirst shown.
Proof.
  intros Hpos shown older. subst shown older.
  rewrite (applyLimit_firstn _ _ Hpos).
  pose proof (sortSlice_sorted events) as Hsorted.
  rewrite <- (firstn_skipn (Z.to_nat limit) (sortSlice events)) in Hsorted.
  apply StronglySorted_app in Hsorted as (Hcross & Hfirst & _).
  split; [|split; [|split]].
  - rewrite <- (sortSlice_Permutation events) at 1.
    rewrite <- (firstn_skipn (Z.to_nat limit) (sortSlice events)) at 1.
    apply Permutation_app_tail, Permutation_rev.
  - rewrite length_rev, length_firstn.
    rewrite (Permutation_length (sortSlice_Permutation events)). reflexivity.
  - intros e o He Ho. apply in_rev in He.
    apply (Hcross e o); apply list_elem_of_In; assumption.
  - apply reversed_is_chronological, Hfirst.
Qed.

(** C10, for files that scan cleanly.  For every events file that opens and
    is scanned without error, and every limit greater than zero, the printer
    shows at most limit events; they are events of parseable lines (the other lines
    are skipped), no event left out is more recent than one shown, and they
    are printed oldest first; with no parseable line it prints the "no events
    found" line and returns nil. *)
Theorem C10_recent_events_in_order
    (townRoot : string) (limit : Z) (content : string) (lines : list string) :
  osOpen (filepathJoin [townRoot; ".events.jsonl"]) = Some content ->
  scanLines content EmptyString 0%N = Some lines ->
  0 < limit ->
  exists shown older,
    Permutation (parsedEvents lines) (shown ++ older)
    /\ (forall e, In e (parsedEvents lines)
          <-> exists line, In line lines /\ parseGtEventLine line = Some e)
    /\ length shown = Nat.min (Z.to_nat limit) (length (parsedEvents lines))
    /\ Z.of_nat (length shown) <= limit
    /\ (forall e o, In e shown -> In o older -> evTime o <= evTime e)
    /\ StronglySorted oldestFirst shown
    /\ PrintGtEvents townRoot limit
       = (match shown with
          | [] => [NoEventsLine]
          | _ :: _ => map printEvent shown
          end, None)
    /\ (parsedEvents lines = [] ->
          PrintGtEvents townRoot limit = ([NoEventsLine], None)).
Proof.
  intros Hopen Hscan Hpos.
  destruct (limit_keeps_most_recent limit (parsedEvents lines) Hpos)
    as (Hperm & Hlen & Hrecent & Hchrono).
  set (shown := rev (applyLimit limit (sortSlice (parsedEvents lines)))) in *.
  exists shown, (skipn (Z.to_nat limit) (sortSlice (parsedEvents lines))).
  assert (PrintGtEvents townRoot limit
          = (match shown with
             | [] => [NoEventsLine]
             | _ :: _ => map printEvent shown
             end, None)) as Hprint.
  { unfold PrintGtEvents. rewrite Hopen, Hscan.
    fold (parsedEvents lines). fold shown. destruct shown; reflexivity. }
  split; [exact Hperm|]. split; [apply parsedEvents_In|].
  split; [exact Hlen|]. split; [lia|].
  split; [exact Hrecent|]. split; [exact Hchrono|].
  split; [exact Hprint|].
  intros Hnone. rewrite Hprint. rewrite Hnone in Hlen. simpl in Hlen.
  rewrite Nat.min_0_r in Hlen. destruct shown; [reflexivity | discriminate].
Qed.

(** *** Further properties of the printer *)

Lemma applyLimit_none (limit : Z) (events : list Event) :
  limit <= 0 -> applyLimit limit events = events.
Proof.
  intros Hle. unfold applyLimit.
  destruct (0 <? limit) eqn:E; [apply Z.ltb_lt in E; lia | reflexivity].
Qed.

(** X11.  The printer prints at least one line exactly when it returns nil:
    with an error (no file, or a scanner error) nothing is printed, and
    without one either the events or the "no events found" line are. *)
Theorem X11_prints_exactly_when_no_error (townRoot : string) (limit : Z) :
  (snd (PrintGtEvents townRoot limit) = None
     -> fst (PrintGtEvents townRoot limit) <> [])
  /\ (snd (PrintGtEvents townRoot limit) <> None
        -> fst (PrintGtEvents townRoot limit) = []).
Proof.
  unfold PrintGtEvents.
  destruct (osOpen _) as [content|]; [|split; [discriminate | reflexivity]].
  destruct (scanLines content EmptyString 0%N) as [lines|];
    [|split; [discriminate | reflexivity]].
  destruct (rev (applyLimit limit (sortSlice (omap parseGtEventLine lines))))
    as [|e events]; simpl; split; congruence.
Qed.

(** X12.  A limit of zero or less is no limit: on a file that scans without
    error every event of a parseable line is printed, oldest first. *)
Theorem X12_no_limit_prints_every_event
    (townRoot : string) (limit : Z) (content : string) (lines : list string) :
  osOpen (filepathJoin [townRoot; ".events.jsonl"]) = Some content ->
  scanLines content EmptyString 0%N = Some lines ->
  limit <= 0 ->
  exists shown,
    Permutation shown (parsedEvents lines)
    /\ StronglySorted oldestFirst shown
    /\ PrintGtEvents townRoot limit
       = (match shown with
          | [] => [NoEventsLine]
          | _ :: _ => map printEvent shown
          end, None).
Proof.
  intros Hopen Hscan Hle.
  exists (rev (sortSlice (parsedEvents lines))).
  split; [|split].
  - rewrite <- Permutation_rev. apply sortSlice_Permutation.
  - apply reversed_is_chronological, sortSlice_sorted.
  - unfold PrintGtEvents. rewrite Hopen, Hscan.
    fold (parsedEvents lines). rewrite (applyLimit_none _ _ Hle).
    destruct (rev (sortSlice (parsedEvents lines))); reflexivity.
Qed.

(** X13.  No event line is printed with an empty actor: an event without
    actor is shown as the system's. *)
Theorem X13_printed_actor_is_never_empty
    (townRoot : string) (limit : Z) (ts : string) (symbol : Symbol)
    (actor message : string) :
  In (EventLine ts symbol actor message) (fst (PrintGtEvents townRoot limit)) ->
  actor <> EmptyString.
Proof.
  unfold PrintGtEvents.
  destruct (osOpen _) as [content|]; [|intros []].
  destruct (scanLines content EmptyString 0%N) as [lines|]; [|intros []].
  destruct (length _ =? 0)%nat; simpl.
  - intros [H|[]]. discriminate.
  - intros H. apply in_map_iff in H as (e & He & _).
    unfold printEvent in He. inversion He as [[Hts Hsym Hactor Hmsg]].
    destruct (String.eqb (evActor e) EmptyString) eqn:E.
    + discriminate.
    + apply String.eqb_neq in E. exact E.
Qed.

(** *** Further properties of the scanner *)

Fixpoint hasLineFeed (s : string) : bool :=
  match s with
  | EmptyString => false
  | String c rest => Ascii.eqb c lineFeed || hasLineFeed rest
  end.

(** The last byte of the string is a carriage return. *)
Fixpoint endsWithCR (s : string) : bool :=
  match s with
  | EmptyString => false
  | String c rest =>
      match rest with
      | EmptyString => Ascii.eqb c carriageReturn
      | String _ _ => endsWithCR rest
      end
  end.

(** A file written line by line, each line closed by a line feed. *)
Definition joinLines (lines : list string) : string :=
  fold_right (fun line rest => line +:+ String lineFeed rest) EmptyString lines.

(** What the scanner hands out as a line. *)
Definition Scannable (line : string) : Prop :=
  hasLineFeed line = false
  /\ (N.of_nat (String.length line) < maxTokenSize)%N.






Lemma scanLines_line (line revLine rest : string) (n : N) :
  hasLineFeed line = false ->
  (n + N.of_nat (String.length line) < maxTokenSize)%N ->
  scanLines (line +:+ String lineFeed rest) revLine n
  = cons (String.rev (dropCR (String.rev_app line revLine)))
      <$> scanLines rest EmptyString 0%N.
Proof.
  revert revLine n. induction line as [|c line IH]; intros revLine n Hlf Hlen.
  - rewrite GoStrings.app_nil. simpl. reflexivity.
  - rewrite GoStrings.app_cons. simpl in Hlf, Hlen |- *.
    apply orb_false_iff in Hlf as [Hc Hline]. rewrite Hc.
    destruct (maxTokenSize <=? n + 1)%N eqn:Hfull;
      [apply N.leb_le in Hfull; lia|].
    apply IH; [exact Hline | lia].
Qed.

Lemma rev_app_rev_app (a b c : string) :
  String.rev_app (String.rev_app a b) c = String.rev_app b (a +:+ c).
Proof.
  revert b c. induction a as [|x a IH]; intros b c; [reflexivity|].
  simpl. rewrite IH. reflexivity.
Qed.

Lemma append_nil_r (a : string) : a +:+ EmptyString = a.
Proof.
  induction a as [|x a IH]; [reflexivity|].
  rewrite GoStrings.app_cons, IH. reflexivity.
Qed.

Lemma dropCR_rev_app (line revLine : string) :
  line <> EmptyString -> endsWithCR line = false ->
  dropCR (String.rev_app line revLine) = String.rev_app line revLine.
Proof.
  revert revLine. induction line as [|c line IH]; intros revLine Hne Hcr;
    [congruence|].
  simpl. destruct line as [|c' line'].
  - simpl in Hcr |- *. rewrite Hcr. reflexivity.
  - apply IH; [discriminate | exact Hcr].
Qed.

Lemma scanned_back (line : string) :
  endsWithCR line = false ->
  String.rev (dropCR (String.rev_app line EmptyString)) = line.
Proof.
  intros Hcr. destruct line as [|c line]; [reflexivity|].
  rewrite dropCR_rev_app by (discriminate || exact Hcr).
  unfold String.rev. rewrite rev_app_rev_app. simpl. apply append_nil_r.
Qed.

(** X15.  Lines written one per line are read back as they were: for lines
    without line feed, not ending in a carriage return and shorter than the
    buffer, scanning the file made of them, each closed by a line feed,
    succeeds and yields exactly these lines. *)
Theorem X15_written_lines_are_read_back (lines : list string) :
  Forall (fun line => Scannable line /\ endsWithCR line = false) lines ->
  scanLines (joinLines lines) EmptyString 0%N = Some lines.
Proof.
  induction 1 as [|line lines ((Hlf & Hlen) & Hcr) _ IH]; [reflexivity|].
  simpl. rewrite scanLines_line by (exact Hlf || lia).
  rewrite IH, (scanned_back line Hcr). reflexivity.
Qed.

(** *** The one-line formatter *)

(** The payload of a raw event, a JSON object. *)
Variable Payload : Type.

(** [GtEvent], with the fields the formatter reads ([Timestamp], [Type],
    [Actor] and [Payload] in the source). *)
Record GtEvent := mkGtEvent {
  geTimestamp : string;
  geType : string;
  geActor : string;
  gePayload : Payload
}.

(** [json.Unmarshal] into a [GtEvent]: the event, or nothing on an error. *)
Variable jsonUnmarshal : string -> option GtEvent.

(** [time.Parse(time.RFC3339, ...)]: the instant, or nothing on an error. *)
Variable parseRFC3339 : string -> option Time.

(** [buildEventMessage], defined in another file of the package. *)
Variable buildEventMessage : string -> Payload -> string.

(** The verb [%-25s] of package fmt: the string, padded on the right to 25
    characters. *)
Variable padRight25 : string -> string.

(** The bytes of a symbol in UTF-8. *)
Definition utf8 (bytes : list nat) : string :=
  fold_right (fun b rest => String (ascii_of_nat b) rest) EmptyString bytes.

Definition symbolText (symbol : Symbol) : string :=
  match symbol with
  | Owl => utf8 [240; 159; 166; 137]%nat
  | Lightning => utf8 [226; 154; 161]%nat
  | Target => utf8 [240; 159; 142; 175]%nat
  | Handshake => utf8 [240; 159; 164; 157]%nat
  | CheckMark => utf8 [226; 156; 147]%nat
  | Cross => utf8 [226; 156; 151]%nat
  | PlusSign => "+"
  | CircledMinus => utf8 [226; 138; 152]%nat
  | Arrow => utf8 [226; 134; 146]%nat
  end.

(** [printGtEventLine] (lines 71-86), called at the instant [now]. *)
Definition printGtEventLine (now : Time) (line : string) : string :=
  match jsonUnmarshal line with
  | None => EmptyString
  | Some ge =>
      let t := match parseRFC3339 (geTimestamp ge) with
               | Some t => t
               | None => now
               end in
      let symbol := typeSymbol (geType ge) in
      let message := buildEventMessage (geType ge) (gePayload ge) in
      "[" +:+ formatClock t +:+ "] " +:+ symbolText symbol +:+ " "
          +:+ padRight25 (geActor ge) +:+ " " +:+ message
  end.

(** X16.  The one-line formatter returns the empty string exactly for a line
    that is no JSON event.  A line that is one is always formatted: with the
    clock of its timestamp, or with the current clock when the timestamp does
    not parse. *)
Theorem X16_empty_line_means_unparseable (now : Time) (line : string) :
  (printGtEventLine now line = EmptyString <-> jsonUnmarshal line = None)
  /\ forall ge, jsonUnmarshal line = Some ge ->
       exists t rest,
         printGtEventLine now line = "[" +:+ formatClock t +:+ "] " +:+ rest
         /\ (parseRFC3339 (geTimestamp ge) = Some t
             \/ parseRFC3339 (geTimestamp ge) = None /\ t = now).
Proof.
  unfold printGtEventLine. destruct (jsonUnmarshal line) as [ge|].
  - split; [split; discriminate|].
    intros ge' Hge. injection Hge as <-.
    destruct (parseRFC3339 (geTimestamp ge)) as [t|];
      eexists _, _; (split; [reflexivity|]); auto.
  - split; [split; reflexivity | discriminate].
Qed.

End Printer.

(** *** A concrete feed *)

(** One instance of the line parser: a line that starts with a number is an
    event at that second; its type is [done] and the rest is the message. *)
Definition sampleParse (line : string) : option Event :=
  match line with
  | String c _ =>
      match Daemon.digitValue c with
      | Some _ =>
          let '(t, rest) := Daemon.leadingInt line 0 in
          Some (mkEvent (t * Second) "done" EmptyString rest)
      | None => None
      end
  | EmptyString => None
  end.

#[local] Instance newestFirst_dec : RelDecision newestFirst.
Proof. intros a b. unfold newestFirst. apply _. Defined.

#[local] Instance newestFirst_total : Total newestFirst.
Proof. intros a b. unfold newestFirst. lia. Qed.

#[local] Instance newestFirst_trans : Transitive newestFirst.
Proof. intros a b c. unfold newestFirst. lia. Qed.

(** One instance of the sort: a merge sort, most recent first. *)
Definition sampleSort : list Event -> list Event := merge_sort newestFirst.

Definition twoDigits (n : Z) : string :=
  String (ascii_of_N (Z.to_N (48 + n / 10)))
    (String (ascii_of_N (Z.to_N (48 + n mod 10))) EmptyString).

(** One instance of the clock format, in UTC. *)
Definition sampleClock (t : Time) : string :=
  let s := (t / Second) mod 86400 in
  twoDigits (s / 3600) +:+ ":" +:+ twoDigits ((s / 60) mod 60)
    +:+ ":" +:+ twoDigits (s mod 60).

Definition newline : string := String lineFeed EmptyString.

(** Four lines, one of them no event. *)
Definition sampleFeed : string :=
  "30 c" +:+ newline +:+ "10 a" +:+ newline +:+ "not an event" +:+ newline
    +:+ "20 b" +:+ newline.

Definition sampleDisk (content : string) (path : string) : option string :=
  if String.eqb path "town/.events.jsonl" then Some content else None.

(** A file of one line whose [maxTokenSize] bytes fill the scanner's buffer
    before its line feed is read. *)
Definition oversizedLine : string :=
  N.iter maxTokenSize (String "x") newline.

Lemma sampleSort_Permutation (events : list Event) :
  Permutation (sampleSort events) events.
Proof. apply merge_sort_Permutation. Qed.

Lemma sampleSort_sorted (events : list Event) :
  StronglySorted newestFirst (sampleSort events).
Proof. apply StronglySorted_merge_sort; apply _. Qed.

Example sample_feed_lines :
  scanLines sampleFeed EmptyString 0%N
  = Some ["30 c"; "10 a"; "not an event"; "20 b"].
Proof. vm_compute. reflexivity. Qed.

Example sample_feed_printed :
  PrintGtEvents sampleParse sampleSort sampleClock Config.sampleJoin
    (sampleDisk sampleFeed) "town" 2
  = ([ EventLine "00:00:20" CheckMark "system" " b";
       EventLine "00:00:30" CheckMark "system" " c" ], None).
Proof. vm_compute. reflexivity. Qed.

Example empty_feed_printed :
  PrintGtEvents sampleParse sampleSort sampleClock Config.sampleJoin
    (sampleDisk ("not an event" +:+ newline)) "town" 2
  = ([NoEventsLine], None).
Proof. vm_compute. reflexivity. Qed.

Example missing_feed :
  PrintGtEvents sampleParse sampleSort sampleClock Config.sampleJoin
    (sampleDisk sampleFeed) "elsewhere" 2
  = ([], Some ErrNoEventsFile).
Proof. vm_compute. reflexivity. Qed.

Lemma C10_recent_events_in_order_witness :
  exists shown older,
    Permutation
      (parsedEvents sampleParse ["30 c"; "10 a"; "not an event"; "20 b"])
      (shown ++ older)
    /\ (forall e,
          In e (parsedEvents sampleParse ["30 c"; "10 a"; "not an event"; "20 b"])
          <-> exists line,
                In line ["30 c"; "10 a"; "not an event"; "20 b"]
                /\ sampleParse line = Some e)
    /\ length shown
       = Nat.min (Z.to_nat 2)
           (length (parsedEvents sampleParse
                      ["30 c"; "10 a"; "not an event"; "20 b"]))
    /\ Z.of_nat (length shown) <= 2
    /\ (forall e o, In e shown -> In o older -> evTime o <= evTime e)
    /\ StronglySorted oldestFirst shown
    /\ PrintGtEvents sampleParse sampleSort sampleClock Config.sampleJoin
         (sampleDisk sampleFeed) "town" 2
       = (match shown with
          | [] => [NoEventsLine]
          | _ :: _ => map (printEvent sampleClock) shown
          end, None)
    /\ (parsedEvents sampleParse ["30 c"; "10 a"; "not an event"; "20 b"] = [] ->
          PrintGtEvents sampleParse sampleSort sampleClock Config.sampleJoin
            (sampleDisk sampleFeed) "town" 2
          = ([NoEventsLine], None)).
Proof.
  apply (C10_recent_events_in_order sampleParse sampleSort sampleClock
           Config.sampleJoin (sampleDisk sampleFeed)
           sampleSort_Permutation sampleSort_sorted
           "town" 2 sampleFeed ["30 c"; "10 a"; "not an event"; "20 b"]).
  - vm_compute. reflexivity.
  - vm_compute. reflexivity.
  - lia.
Defined.

(** C10 does not extend to a file whose line does not fit the scanner's
    buffer: the limit is positive and no event parses, yet nothing is printed
    and the scanner's error is returned instead of nil. *)
Lemma C10_oversized_line_counterexample :
  0 < 10
  /\ sampleParse oversizedLine = None
  /\ PrintGtEvents sampleParse sampleSort sampleClock Config.sampleJoin
       (sampleDisk oversizedLine) "town" 10
     = ([], Some ErrReadingEvents)
  /\ PrintGtEvents sampleParse sampleSort sampleClock Config.sampleJoin
       (sampleDisk oversizedLine) "town" 10
     <> ([NoEventsLine], None).
Proof.
  assert (PrintGtEvents sampleParse sampleSort sampleClock Config.sampleJoin
            (sampleDisk oversizedLine) "town" 10
          = ([], Some ErrReadingEvents)) as Hrun
    by (vm_compute; reflexivity).
  split; [lia|]. split; [vm_compute; reflexivity|].
  split; [exact Hrun|]. rewrite Hrun. discriminate.
Qed.

(** *** The further properties on the concrete feed *)

Lemma X12_no_limit_prints_every_event_witness :
  exists shown,
    Permutation shown
      (parsedEvents sampleParse ["30 c"; "10 a"; "not an event"; "20 b"])
    /\ StronglySorted oldestFirst shown
    /\ PrintGtEvents sampleParse sampleSort sampleClock Config.sampleJoin
         (sampleDisk sampleFeed) "town" 0
       = (match shown with
          | [] => [NoEventsLine]
          | _ :: _ => map (printEvent sampleClock) shown
          end, None).
Proof.
  apply (X12_no_limit_prints_every_event sampleParse sampleSort sampleClock
           Config.sampleJoin (sampleDisk sampleFeed)
           sampleSort_Permutation sampleSort_sorted
           "town" 0 sampleFeed ["30 c"; "10 a"; "not an event"; "20 b"]).
  - vm_compute. reflexivity.
  - vm_compute. reflexivity.
  - lia.
Defined.

Example sample_feed_unlimited :
  PrintGtEvents sampleParse sampleSort sampleClock Config.sampleJoin
    (sampleDisk sampleFeed) "town" 0
  = ([ EventLine "00:00:10" CheckMark "system" " a";
       EventLine "00:00:20" CheckMark "system" " b";
       EventLine "00:00:30" CheckMark "system" " c" ], None).
Proof. vm_compute. reflexivity. Qed.

Lemma X13_printed_actor_is_never_empty_witness :
  In (EventLine "00:00:20" CheckMark "system" " b")
     (fst (PrintGtEvents sampleParse sampleSort sampleClock Config.sampleJoin
             (sampleDisk sampleFeed) "town" 2))
  /\ "system" <> EmptyString.
Proof.
  assert (In (EventLine "00:00:20" CheckMark "system" " b")
            (fst (PrintGtEvents sampleParse sampleSort sampleClock
                    Config.sampleJoin (sampleDisk sampleFeed) "town" 2)))
    as Hin by (vm_compute; left; reflexivity).
  split; [exact Hin|].
  exact (X13_printed_actor_is_never_empty sampleParse sampleSort sampleClock
           Config.sampleJoin (sampleDisk sampleFeed) "town" 2
           "00:00:20" CheckMark "system" " b" Hin).
Defined.


Lemma X15_written_lines_are_read_back_witness :
  scanLines (joinLines ["30 c"; "10 a"; "not an event"; "20 b"])
    EmptyString 0%N
  = Some ["30 c"; "10 a"; "not an event"; "20 b"].
Proof.
  apply (X15_written_lines_are_read_back
           ["30 c"; "10 a"; "not an event"; "20 b"]).
  repeat constructor.
Defined.

(** A carriage return before the line feed is dropped, so a line that ends
    in one is not read back as written. *)
Example carriage_return_is_dropped :
  scanLines (joinLines ["a" +:+ String carriageReturn EmptyString])
    EmptyString 0%N
  = Some ["a"].
Proof. vm_compute. reflexivity. Qed.

End Feed.
